(** * surface-sampler: the pipeline script as a program over library calls

    The script [surface-sampler.py] is one straight sequence of calls into
    pygamer, pyvista, vtk, pyacvd, numpy and lightdock, with literal
    parameters, two counted loops and three loops over library sequences.

    The embedding keeps that shape.  A program is a tree of library calls
    ([prog]): every call names the function or method of the source with
    the arguments the source passes, and continues with whatever the
    library answers.  A library is a [handler]: a state transformer on an
    arbitrary world that answers a call with a value or raises.  Running a
    program against a handler yields the trace of calls made, in program
    order, with their answers.  All statements below hold for every
    handler, that is for every behaviour of the libraries. *)

From Stdlib Require Import ZArith List Ascii String Bool Lia.
From Stdlib Require Import Floats.SpecFloat.
Import ListNotations.
Local Open Scope string_scope.
Local Open Scope list_scope.
Local Open Scope Z_scope.

(** ** Python values used by the script *)

(** A Python [float] is an IEEE binary64 value. *)
Definition float : Type := spec_float.

(** [float(z)] for a small integer literal, rounded to binary64. *)
Definition float_of_Z (z : Z) : float := binary_normalize 53 1024 z 0 false.

(** A dyadic literal [m * 2^e] rounded to binary64 (2.5 is [5 * 2^-1]). *)
Definition float_of_dyadic (m e : Z) : float := binary_normalize 53 1024 m e false.

(** The literal [0.1]: the nearest binary64, 0x1.999999999999ap-4. *)
Definition float_0_1 : float := S754_finite false 7205759403792794 (-56).

(** The literal [0.97]: the nearest binary64, 0x1.f0a3d70a3d70ap-1. *)
Definition float_0_97 : float := S754_finite false 8736983277098762 (-53).

(** The literal [8.0]. *)
Definition float_8_0 : float := float_of_Z 8.

(** The literal [10.0] (the unused argparse default of [distance]). *)
Definition float_10_0 : float := float_of_Z 10.

Inductive exn : Type :=
| IndexError
| OverflowError
| ValueError
| OtherError (name : string).

(** [int(x)] on a float: truncation toward zero; [inf] raises
    OverflowError and [nan] raises ValueError.  A finite float is
    [(-1)^s * m * 2^e]; shifting the magnitude left by [e] (right when
    [e] is negative) drops the fraction. *)
Definition py_int (x : float) : exn + Z :=
  match x with
  | S754_zero _ => inr 0
  | S754_infinity _ => inl OverflowError
  | S754_nan => inl ValueError
  | S754_finite s m e => inr (cond_Zopp s (Z.shiftl (Z.pos m) e))
  end.

(** [range(a, b)] as the list it iterates over. *)
Definition py_range (a b : Z) : list Z :=
  map (fun i => a + Z.of_nat i) (seq 0 (Z.to_nat (b - a))).

(** [enumerate(l)]. *)
Definition enumerate {A : Type} (l : list A) : list (Z * A) :=
  combine (py_range 0 (Z.of_nat (List.length l))) l.

(** References to objects owned by the libraries (meshes, iterators'
    items, plotters, arrays). *)
Definition obj : Type := N.

(** A number passed where the callee accepts int or float. *)
Inductive number : Type :=
| NInt (z : Z)
| NFloat (x : float).

(** Values assigned to attributes. *)
Inductive value : Type :=
| VBool (b : bool)
| VInt (z : Z).

(** The pieces of a formatted string handed to [print]. *)
Inductive fragment : Type :=
| Txt (s : string)
| Int (z : Z)
| Flt (x : float).

(** The two vtk enumeration members the script reads. *)
Inductive vtk_const : Type :=
| FIELD_ASSOCIATION_POINTS
| NORMALS.

(** The [type=] of an argparse argument. *)
Inductive argtype : Type :=
| type_float
| type_int.

(** The parsed command line. *)
Record Namespace : Type := mkNamespace {
  molecule : string;
  distance : float;
  points : Z
}.

(** ** Library calls *)

(** One constructor per function, method or attribute of a library that
    the script uses, with the arguments of the source in source order. *)
Inductive call : Type :=
(* argparse *)
| ArgumentParser (prog : string)
| add_argument (parser : obj) (name : string) (type : option argtype)
    (default : option number) (help : string)
| parse_args (parser : obj)
(* pygamer *)
| readPDB_gauss (filename : string)
| compute_orientation (mesh : obj)
| correctNormals (mesh : obj)
| splitSurfaces (mesh : obj)
| getVolume (mesh : obj)
| vertexIDs (mesh : obj)
| faceIDs (mesh : obj)
| data (id : obj)
| setattr (o : obj) (name : string) (v : value)
| smooth (mesh : obj) (max_iter : Z) (preserve_ridges verbose : bool)
| coarse_dense (mesh : obj) (rate : number) (numiter : Z)
| coarse_flat (mesh : obj) (rate : number) (numiter : Z)
| nVertices (mesh : obj)
| nEdges (mesh : obj)
| nFaces (mesh : obj)
| getRoot (mesh : obj)
| writeOBJ (filename : string) (mesh : obj)
(* pyvista *)
| pv_read (filename : string)
| decimate (mesh : obj) (target_reduction : float) (volume_preservation : bool)
| extract_surface (mesh : obj)
| get_points (mesh : obj)
| len (o : obj)
| compute_normals (mesh : obj)
| pv_wrap (dataset : obj)
| Plotter (notebook : bool) (shape : Z * Z)
| add_mesh (p mesh : obj) (smooth_shading : option bool)
| add_points (p pts : obj) (color : string) (point_size : float)
    (render_points_as_spheres : bool)
| link_views (p : obj)
| show_bounds (p : obj)
| show (p : obj)
(* numpy *)
| np_asarray (a : obj)
(* vtk *)
| vtkWarpVector
| SetInputData (warp input : obj)
| SetInputArrayToProcess (warp : obj) (idx port connection : Z)
    (fieldAssociation attributeType : vtk_const)
| SetScaleFactor (warp : obj) (factor : number)
| Update (warp : obj)
| GetOutput (warp : obj)
(* pyacvd *)
| Clustering (mesh : obj)
| subdivide (clus : obj) (nsub : Z)
| cluster (clus : obj) (nclus : Z)
| create_mesh (clus : obj)
(* lightdock *)
| create_pdb_from_points (pdb_file_name : string) (pts : obj)
(* builtins *)
| print (msg : list fragment).

(** What the script receives from each call.  Results the script drops
    are [unit].  A library sequence that the script iterates over
    ([splitSurfaces()], [vertexIDs], [faceIDs]) is received as the finite
    list of its items. *)
Definition ret_of (c : call) : Type :=
  match c with
  | ArgumentParser _ => obj
  | parse_args _ => Namespace
  | readPDB_gauss _ => obj
  | compute_orientation _ => (Z * bool * bool)%type
  | splitSurfaces _ => list obj
  | getVolume _ => float
  | vertexIDs _ => list obj
  | faceIDs _ => list obj
  | data _ => obj
  | nVertices _ => Z
  | nEdges _ => Z
  | nFaces _ => Z
  | getRoot _ => obj
  | pv_read _ => obj
  | decimate _ _ _ => obj
  | extract_surface _ => obj
  | get_points _ => obj
  | len _ => Z
  | compute_normals _ => obj
  | pv_wrap _ => obj
  | Plotter _ _ => obj
  | np_asarray _ => obj
  | vtkWarpVector => obj
  | GetOutput _ => obj
  | Clustering _ => obj
  | create_mesh _ => obj
  | _ => unit
  end.

(** ** Programs *)

Inductive prog (A : Type) : Type :=
| Ret (a : A)
| Raise (e : exn)
| Call (c : call) (k : ret_of c -> prog A).

Arguments Ret {A} a.
Arguments Raise {A} e.
Arguments Call {A} c k.

Fixpoint bind {A B : Type} (p : prog A) (f : A -> prog B) : prog B :=
  match p with
  | Ret a => f a
  | Raise e => Raise e
  | Call c k => Call c (fun r => bind (k r) f)
  end.

Definition invoke (c : call) : prog (ret_of c) := Call c Ret.

Declare Scope prog_scope.
Delimit Scope prog_scope with prog.
Notation "x <- p ;; q" := (bind p (fun x => q))
  (at level 61, p at next level, right associativity) : prog_scope.
Notation "' pat <- p ;; q" := (bind p (fun x => match x with pat => q end))
  (at level 61, pat pattern, p at next level, right associativity) : prog_scope.
Notation "p ;; q" := (bind p (fun _ => q))
  (at level 61, right associativity) : prog_scope.
Local Open Scope prog_scope.

(** [for x in l: s = body(x, s)]: a loop that threads the variables it
    reassigns. *)
Fixpoint for_in {A S : Type} (l : list A) (body : A -> S -> prog S) (s : S)
  : prog S :=
  match l with
  | [] => Ret s
  | x :: l' => s' <- body x s ;; for_in l' body s'
  end.

(** A loop that reassigns nothing. *)
Definition for_each {A : Type} (l : list A) (body : A -> prog unit) : prog unit :=
  for_in l (fun x _ => body x) tt.

(** [l[0]]. *)
Definition index0 {A : Type} (l : list A) : prog A :=
  match l with
  | [] => Raise IndexError
  | x :: _ => Ret x
  end.

(** [int(x)] as a step of the program. *)
Definition int_of_float (x : float) : prog Z :=
  match py_int x with
  | inl e => Raise e
  | inr k => Ret k
  end.

(** ** The script *)

Section Script.

(** [Path(p).stem] of the standard library: a pure function of the path
    string, fixed by the Python version and platform the script runs on. *)
Variable stem : string -> string.

(** [parse_command_line()], lines 13-20. *)
Definition parse_command_line : prog Namespace :=
  parser <- invoke (ArgumentParser "surface-sampler") ;;
  invoke (add_argument parser "molecule" None None
            "PDB file for input structure") ;;
  invoke (add_argument parser "distance" (Some type_float)
            (Some (NFloat float_10_0)) "Distance to surface") ;;
  invoke (add_argument parser "points" (Some type_int)
            (Some (NInt 400)) "Number of points to generate") ;;
  args <- invoke (parse_args parser) ;;
  Ret args.

(** Lines 26-41: mesh the molecule, report the orientation, split into
    components and keep [meshes[0]]. *)
Definition surface_construction (args : Namespace) : prog obj :=
  mesh <- invoke (readPDB_gauss (molecule args)) ;;
  '(components, orientable, manifold) <- invoke (compute_orientation mesh) ;;
  invoke (correctNormals mesh) ;;
  invoke (print [Txt "The mesh has "; Int components; Txt " components, is";
                 Txt " "; Txt (if orientable then "orientable" else "non-orientable");
                 Txt ", and is";
                 Txt " "; Txt (if manifold then "manifold" else "non-manifold");
                 Txt "."]) ;;
  meshes <- invoke (splitSurfaces mesh) ;;
  for_each (enumerate meshes) (fun '(i, m) =>
    vol <- invoke (getVolume m) ;;
    invoke (print [Txt "Mesh "; Int i; Txt " is "; Flt vol;
                   Txt " A^3 in volume."])) ;;
  index0 meshes.

(** Lines 43-46: select every vertex, then the first smoothing. *)
Definition initial_smoothing (mesh : obj) : prog unit :=
  vs <- invoke (vertexIDs mesh) ;;
  for_each vs (fun v =>
    d <- invoke (data v) ;;
    invoke (setattr d "selected" (VBool true))) ;;
  invoke (smooth mesh 5 false true).

(** Lines 48-54: the refinement loop. *)
Definition refinement (mesh : obj) : prog unit :=
  for_each (py_range 0 5) (fun i =>
    invoke (coarse_dense mesh (NInt 2) 3) ;;
    invoke (coarse_flat mesh (NFloat float_0_1) 3) ;;
    invoke (smooth mesh 3 true false) ;;
    nv <- invoke (nVertices mesh) ;;
    ne <- invoke (nEdges mesh) ;;
    nf <- invoke (nFaces mesh) ;;
    invoke (print [Txt "Iteration "; Int (i + 1); Txt ": "; Int nv;
                   Txt " vertices, "; Int ne; Txt " edges, and "; Int nf;
                   Txt " faces."])).

(** Lines 60-71: face markers, root metadata, export to [<stem>.obj]. *)
Definition export_surface (args : Namespace) (mesh : obj) : prog string :=
  fs <- invoke (faceIDs mesh) ;;
  for_each fs (fun faceID =>
    d <- invoke (data faceID) ;;
    invoke (setattr d "marker" (VInt 23))) ;;
  gInfo <- invoke (getRoot mesh) ;;
  invoke (setattr gInfo "ishole" (VBool true)) ;;
  invoke (setattr gInfo "marker" (VInt (-1))) ;;
  let obj_name := (stem (molecule args) ++ ".obj")%string in
  invoke (writeOBJ obj_name mesh) ;;
  Ret obj_name.

(** Lines 74-76: read the file back and decimate. *)
Definition reimport_decimate (obj_name : string) : prog obj :=
  mesh <- invoke (pv_read obj_name) ;;
  decimated <- invoke (decimate mesh float_0_97 true) ;;
  shell <- invoke (extract_surface decimated) ;;
  mesh_points <- invoke (get_points mesh) ;;
  n_mesh <- invoke (len mesh_points) ;;
  shell_points <- invoke (get_points shell) ;;
  n_shell <- invoke (len shell_points) ;;
  invoke (print [Txt "Decimation: "; Int n_mesh; Txt " -> "; Int n_shell]) ;;
  Ret shell.

(** Lines 80-89: the body of the expansion loop; [shell] is reassigned. *)
Definition expansion_step (i : Z) (shell : obj) : prog obj :=
  invoke (print [Txt "Expanding: "; Int i]) ;;
  shell <- invoke (compute_normals shell) ;;
  warp <- invoke vtkWarpVector ;;
  invoke (SetInputData warp shell) ;;
  invoke (SetInputArrayToProcess warp 0 0 0 FIELD_ASSOCIATION_POINTS NORMALS) ;;
  invoke (SetScaleFactor warp (NInt 2)) ;;
  invoke (Update warp) ;;
  output <- invoke (GetOutput warp) ;;
  invoke (pv_wrap output).

(** Lines 79-89: [for i in range(1, int(args.distance)+1)]. *)
Definition expansion (args : Namespace) (shell : obj) : prog obj :=
  k <- int_of_float (distance args) ;;
  for_in (py_range 1 (k + 1)) expansion_step shell.

(** Lines 91-95: subdivide, cluster, build the mesh of the clusters. *)
Definition resampling (args : Namespace) (shell : obj) : prog (obj * obj) :=
  expanded_mesh <- invoke (extract_surface shell) ;;
  clus <- invoke (Clustering expanded_mesh) ;;
  invoke (subdivide clus 3) ;;
  invoke (cluster clus (points args)) ;;
  clustered <- invoke (create_mesh clus) ;;
  shell <- invoke (extract_surface clustered) ;;
  Ret ((expanded_mesh, shell) : obj * obj).

(** Lines 97-107: the viewer, then the point file. *)
Definition visualize_and_write (args : Namespace) (expanded_mesh shell : obj)
  : prog unit :=
  let uniform := shell in
  p <- invoke (Plotter false (1, 1)) ;;
  invoke (add_mesh p shell None) ;;
  uniform_points <- invoke (get_points uniform) ;;
  array <- invoke (np_asarray uniform_points) ;;
  invoke (add_points p array "r" float_8_0 true) ;;
  invoke (add_mesh p expanded_mesh (Some true)) ;;
  invoke (link_views p) ;;
  invoke (show_bounds p) ;;
  invoke (show p) ;;
  uniform_points <- invoke (get_points uniform) ;;
  invoke (create_pdb_from_points (stem (molecule args) ++ "_swarms.pdb")%string
            uniform_points).

(** Lines 26-107: everything after the arguments are parsed. *)
Definition main_block (args : Namespace) : prog unit :=
  mesh <- surface_construction args ;;
  initial_smoothing mesh ;;
  refinement mesh ;;
  obj_name <- export_surface args mesh ;;
  shell <- reimport_decimate obj_name ;;
  shell <- expansion args shell ;;
  '(expanded_mesh, shell) <- resampling args shell ;;
  visualize_and_write args expanded_mesh shell.

(** Lines 23-107. *)
Definition main : prog unit :=
  args <- parse_command_line ;;
  main_block args.

End Script.

(** ** Running a program against the libraries *)

Inductive outcome (A : Type) : Type :=
| Normal (a : A)
| Raised (e : exn).

Arguments Normal {A} a.
Arguments Raised {A} e.

(** A call together with what the library answered: a value, or the
    exception it raised. *)
Definition event : Type := {c : call & (exn + ret_of c)%type}.

Definition Ev (c : call) (r : exn + ret_of c) : event := existT _ c r.

Definition ev_call (e : event) : call := projT1 e.

Definition returned (e : event) : bool :=
  match projT2 e with
  | inr _ => true
  | inl _ => false
  end.

Definition calls (tr : list event) : list call := map ev_call tr.

(** The libraries: each call transforms the world (files, library heaps,
    the screen, the random state of the clustering) and returns or raises. *)
Definition handler (world : Type) : Type :=
  forall c : call, world -> (exn + ret_of c) * world.

(** The script has no [try]: a raised exception ends the run. *)
Fixpoint run {world A : Type} (h : handler world) (p : prog A) (w : world)
  : list event * outcome A * world :=
  match p with
  | Ret a => ([], Normal a, w)
  | Raise e => ([], Raised e, w)
  | Call c k =>
      match h c w with
      | (inl e, w') => ([Ev c (inl e)], Raised e, w')
      | (inr r, w') =>
          let '(tr, o, w'') := run h (k r) w' in
          (Ev c (inr r) :: tr, o, w'')
      end
  end.

(** The traces a program can produce, over all libraries. *)
Fixpoint exec {A : Type} (p : prog A) (tr : list event) (o : outcome A) : Prop :=
  match p with
  | Ret a => tr = [] /\ o = Normal a
  | Raise e => tr = [] /\ o = Raised e
  | Call c k =>
      (exists e, tr = [Ev c (inl e)] /\ o = Raised e) \/
      (exists r tr', tr = Ev c (inr r) :: tr' /\ exec (k r) tr' o)
  end.

(** ** A small library for examples *)

(** The example library hands out fresh object references from a counter
    and reports meshes of a fixed shape. *)
Record toy_shape : Type := mkToy {
  toy_components : nat;
  toy_vertices : nat;
  toy_faces : nat
}.

Definition fresh_list (n : nat) (w : N) : list obj :=
  map (fun i => (w + N.of_nat i)%N) (seq 0 n).

Definition toy (sh : toy_shape) (argv : Namespace) : handler N :=
  fun c w =>
    match c return (exn + ret_of c) * N with
    | ArgumentParser _ => (inr w, N.succ w)
    | parse_args _ => (inr argv, w)
    | readPDB_gauss _ => (inr w, N.succ w)
    | compute_orientation _ =>
        (inr (Z.of_nat (toy_components sh), true, true), w)
    | splitSurfaces _ =>
        (inr (fresh_list (toy_components sh) w),
         (w + N.of_nat (toy_components sh))%N)
    | getVolume m => (inr (float_of_Z (Z.of_N m)), w)
    | vertexIDs _ =>
        (inr (fresh_list (toy_vertices sh) w),
         (w + N.of_nat (toy_vertices sh))%N)
    | faceIDs _ =>
        (inr (fresh_list (toy_faces sh) w),
         (w + N.of_nat (toy_faces sh))%N)
    | data _ => (inr w, N.succ w)
    | nVertices _ => (inr (Z.of_nat (toy_vertices sh)), w)
    | nEdges _ => (inr (Z.of_nat (toy_vertices sh + toy_faces sh)), w)
    | nFaces _ => (inr (Z.of_nat (toy_faces sh)), w)
    | getRoot _ => (inr w, N.succ w)
    | pv_read _ => (inr w, N.succ w)
    | decimate _ _ _ => (inr w, N.succ w)
    | extract_surface _ => (inr w, N.succ w)
    | get_points _ => (inr w, N.succ w)
    | len _ => (inr (Z.of_nat (toy_vertices sh)), w)
    | compute_normals _ => (inr w, N.succ w)
    | pv_wrap _ => (inr w, N.succ w)
    | Plotter _ _ => (inr w, N.succ w)
    | np_asarray _ => (inr w, N.succ w)
    | vtkWarpVector => (inr w, N.succ w)
    | GetOutput _ => (inr w, N.succ w)
    | Clustering _ => (inr w, N.succ w)
    | create_mesh _ => (inr w, N.succ w)
    | _ => (inr tt, w)
    end.

(** A library that fails: the call made when the fuse is [Some 0] raises,
    earlier calls go to [h]. *)
Definition with_fuse {world : Type} (h : handler world)
  : handler (world * option nat) :=
  fun c w =>
    match snd w with
    | Some O => (inl (OtherError "library failure"), w)
    | Some (S n) => let (r, w') := h c (fst w) in (r, (w', Some n))
    | None => let (r, w') := h c (fst w) in (r, (w', None))
    end.

(** A [stem] for the examples: POSIX paths, the rule of CPython up to
    3.13 (the last component, cut at its last dot unless that dot is the
    first or the last character). *)
Fixpoint components (l cur : list Ascii.ascii) : list (list Ascii.ascii) :=
  match l with
  | [] => [rev cur]
  | c :: l' =>
      if Ascii.eqb c "/"%char then rev cur :: components l' []
      else components l' (c :: cur)
  end.

Definition is_dot (a : Ascii.ascii) : bool := Ascii.eqb a "."%char.

Definition proper_component (comp : list Ascii.ascii) : bool :=
  match comp with
  | [] => false
  | [a] => negb (is_dot a)
  | _ => true
  end.

Fixpoint find_index {A : Type} (f : A -> bool) (l : list A) : option nat :=
  match l with
  | [] => None
  | x :: l' => if f x then Some O else option_map S (find_index f l')
  end.

Definition posix_stem (p : string) : string :=
  let name := last (filter proper_component
                      (components (list_ascii_of_string p) [])) [] in
  match find_index is_dot (rev name) with
  | None => string_of_list_ascii name
  | Some j =>
      let i := (List.length name - 1 - j)%nat in
      if ((0 <? i) && (i <? List.length name - 1))%nat
      then string_of_list_ascii (firstn i name)
      else string_of_list_ascii name
  end.

Definition toy_args (d : float) : Namespace :=
  mkNamespace "/data/1abc.pdb" d 400.

Definition small : toy_shape := mkToy 2 2 1.

(** A molecule whose surface has no component. *)
Definition hollow : toy_shape := mkToy 0 0 0.

Definition args_0 : Namespace := toy_args (float_of_Z 0).
Definition args_3 : Namespace := toy_args (float_of_Z 3).
Definition args_2_5 : Namespace := toy_args (float_of_dyadic 5 (-1)).

Definition args_minus_2_5 : Namespace := toy_args (float_of_dyadic (-5) (-1)).

Definition trace_of {world A : Type} (h : handler world) (p : prog A)
           (w : world) : list event :=
  fst (fst (run h p w)).

Definition outcome_of {world A : Type} (h : handler world) (p : prog A)
           (w : world) : outcome A :=
  snd (fst (run h p w)).

Definition world_after {world A : Type} (h : handler world) (p : prog A)
           (w : world) : world :=
  snd (run h p w).

(** ** Shapes of traces *)

(** A loop's trace: one segment per item, each related to the item and
    to the loop variable before and after by [R]. *)
Inductive iterated {A S : Type} (R : A -> S -> list event -> S -> Prop)
  : list A -> S -> list event -> S -> Prop :=
| iterated_nil (s : S) : iterated R [] s [] s
| iterated_cons (x : A) (l : list A) (s s1 s2 : S) (seg tr : list event) :
    R x s seg s1 -> iterated R l s1 tr s2 ->
    iterated R (x :: l) s (seg ++ tr) s2.

(** Every call a program can make satisfies [P]. *)
Fixpoint all_calls {A : Type} (P : call -> Prop) (p : prog A) : Prop :=
  match p with
  | Ret _ => True
  | Raise _ => True
  | Call c k => P c /\ forall r, all_calls P (k r)
  end.

(** ** Reading a trace *)

(** What a call raised, if it raised. *)
Definition raised (e : event) : option exn :=
  match projT2 e with
  | inl err => Some err
  | inr _ => None
  end.

(** The components a [splitSurfaces] call returned. *)
Definition split_result (e : event) : option (list obj) :=
  match e with
  | existT _ c r =>
      match c return exn + ret_of c -> option (list obj) with
      | splitSurfaces _ =>
          fun r => match r with inr l => Some l | inl _ => None end
      | _ => fun _ => None
      end r
  end.

(** The mesh a pygamer call after the split works on. *)
Definition pygamer_target (c : call) : option obj :=
  match c with
  | vertexIDs m | faceIDs m | smooth m _ _ _ | coarse_dense m _ _
  | coarse_flat m _ _ | nVertices m | nEdges m | nFaces m | getRoot m
  | writeOBJ _ m => Some m
  | _ => None
  end.

(** The round number announced by the first statement of the expansion
    loop's body, [print(f'Expanding: {i}')]. *)
Definition announces_round (c : call) : option Z :=
  match c with
  | print [Txt s; Int i] => if String.eqb s "Expanding: " then Some i else None
  | _ => None
  end.

(** The rounds of the expansion loop a run entered, in order. *)
Definition expansion_rounds (tr : list event) : list Z :=
  flat_map (fun e => match announces_round (ev_call e) with
                     | Some i => [i]
                     | None => []
                     end) tr.

(** The integer scale factors handed to [SetScaleFactor], summed: the
    distance the warps move a point along unit normals. *)
Definition scale_total (tr : list event) : Z :=
  fold_right Z.add 0
    (flat_map (fun e => match ev_call e with
                        | SetScaleFactor _ (NInt z) => [z]
                        | _ => []
                        end) tr).

Definition is_split (c : call) : bool :=
  match c with
  | splitSurfaces _ => true
  | _ => false
  end.

Definition is_coarse_dense (c : call) : bool :=
  match c with
  | coarse_dense _ _ _ => true
  | _ => false
  end.

Definition is_coarsening (c : call) : bool :=
  match c with
  | coarse_dense _ _ _ | coarse_flat _ _ _ => true
  | _ => false
  end.

Definition is_decimate (c : call) : bool :=
  match c with
  | decimate _ _ _ => true
  | _ => false
  end.

Definition is_clustering (c : call) : bool :=
  match c with
  | Clustering _ | subdivide _ _ | cluster _ _ | create_mesh _ => true
  | _ => false
  end.

Definition is_warp (c : call) : bool :=
  match c with
  | compute_normals _ | vtkWarpVector | SetInputData _ _
  | SetInputArrayToProcess _ _ _ _ _ _ | SetScaleFactor _ _ | Update _
  | GetOutput _ | pv_wrap _ => true
  | _ => false
  end.

Definition is_write (c : call) : bool :=
  match c with
  | create_pdb_from_points _ _ => true
  | _ => false
  end.

(** [math.ceil(x)], as the specification words the iteration count. *)
Definition spec_ceil (x : float) : exn + Z :=
  match x with
  | S754_zero _ => inr 0
  | S754_infinity _ => inl OverflowError
  | S754_nan => inl ValueError
  | S754_finite s m e =>
      inr (Z.opp (Z.shiftl (cond_Zopp (negb s) (Z.pos m)) e))
  end.

(** *** The segments of the loops *)

(** One pass of [for i, m in enumerate(meshes)], lines 38-39. *)
Definition volume_report (im : Z * obj) (seg : list event) : Prop :=
  exists vol,
    seg = [Ev (getVolume (snd im)) (inr vol);
           Ev (print [Txt "Mesh "; Int (fst im); Txt " is "; Flt vol;
                      Txt " A^3 in volume."]) (inr tt)].

(** One pass of [for v in mesh.vertexIDs], lines 43-44. *)
Definition vertex_selected (v : obj) (seg : list event) : Prop :=
  exists d,
    seg = [Ev (data v) (inr d);
           Ev (setattr d "selected" (VBool true)) (inr tt)].

(** One pass of the refinement loop, lines 49-54. *)
Definition refinement_round (mesh : obj) (i : Z) (seg : list event) : Prop :=
  exists nv ne nf,
    seg = [Ev (coarse_dense mesh (NInt 2) 3) (inr tt);
           Ev (coarse_flat mesh (NFloat float_0_1) 3) (inr tt);
           Ev (smooth mesh 3 true false) (inr tt);
           Ev (nVertices mesh) (inr nv);
           Ev (nEdges mesh) (inr ne);
           Ev (nFaces mesh) (inr nf);
           Ev (print [Txt "Iteration "; Int (i + 1); Txt ": "; Int nv;
                      Txt " vertices, "; Int ne; Txt " edges, and "; Int nf;
                      Txt " faces."]) (inr tt)].

(** One pass of [for faceID in mesh.faceIDs], lines 61-62. *)
Definition face_marked (faceID : obj) (seg : list event) : Prop :=
  exists d,
    seg = [Ev (data faceID) (inr d);
           Ev (setattr d "marker" (VInt 23)) (inr tt)].

(** One pass of the expansion loop, lines 80-89, from the shell it
    starts with to the shell it leaves. *)
Definition expansion_round (i : Z) (shell : obj) (seg : list event)
           (shell' : obj) : Prop :=
  exists normals warp output,
    seg = [Ev (print [Txt "Expanding: "; Int i]) (inr tt);
           Ev (compute_normals shell) (inr normals);
           Ev vtkWarpVector (inr warp);
           Ev (SetInputData warp normals) (inr tt);
           Ev (SetInputArrayToProcess warp 0 0 0
                 FIELD_ASSOCIATION_POINTS NORMALS) (inr tt);
           Ev (SetScaleFactor warp (NInt 2)) (inr tt);
           Ev (Update warp) (inr tt);
           Ev (GetOutput warp) (inr output);
           Ev (pv_wrap output) (inr shell')].

(** *** The calls of each stage *)

Definition calls_of_construction (args : Namespace) (c : call) : Prop :=
  match c with
  | readPDB_gauss f => f = molecule args
  | compute_orientation _ | correctNormals _ | splitSurfaces _
  | getVolume _ => True
  | print _ => announces_round c = None
  | _ => False
  end.

Definition calls_of_initial_smoothing (mesh : obj) (c : call) : Prop :=
  match c with
  | vertexIDs m => m = mesh
  | data _ => True
  | setattr _ name v => name = "selected" /\ v = VBool true
  | smooth m it ridges verbose =>
      m = mesh /\ it = 5 /\ ridges = false /\ verbose = true
  | _ => False
  end.

Definition calls_of_refinement (mesh : obj) (c : call) : Prop :=
  match c with
  | coarse_dense m rate it => m = mesh /\ rate = NInt 2 /\ it = 3
  | coarse_flat m rate it => m = mesh /\ rate = NFloat float_0_1 /\ it = 3
  | smooth m it ridges verbose =>
      m = mesh /\ it = 3 /\ ridges = true /\ verbose = false
  | nVertices m | nEdges m | nFaces m => m = mesh
  | print _ => announces_round c = None
  | _ => False
  end.

Definition calls_of_export (stem : string -> string) (args : Namespace)
           (mesh : obj) (c : call) : Prop :=
  match c with
  | faceIDs m | getRoot m => m = mesh
  | data _ | setattr _ _ _ => True
  | writeOBJ f m => f = (stem (molecule args) ++ ".obj")%string /\ m = mesh
  | _ => False
  end.

Definition calls_of_decimation (obj_name : string) (c : call) : Prop :=
  match c with
  | pv_read f => f = obj_name
  | decimate _ ratio keep => ratio = float_0_97 /\ keep = true
  | extract_surface _ | get_points _ | len _ => True
  | print _ => announces_round c = None
  | _ => False
  end.

Definition calls_of_expansion (c : call) : Prop :=
  match c with
  | print _ => announces_round c <> None
  | SetScaleFactor _ factor => factor = NInt 2
  | SetInputArrayToProcess _ idx port connection assoc attr =>
      idx = 0 /\ port = 0 /\ connection = 0 /\
      assoc = FIELD_ASSOCIATION_POINTS /\ attr = NORMALS
  | compute_normals _ | vtkWarpVector | SetInputData _ _ | Update _
  | GetOutput _ | pv_wrap _ => True
  | _ => False
  end.

Definition calls_of_resampling (args : Namespace) (c : call) : Prop :=
  match c with
  | subdivide _ n => n = 3
  | cluster _ n => n = points args
  | extract_surface _ | Clustering _ | create_mesh _ => True
  | _ => False
  end.

Definition calls_of_viewer (c : call) : Prop :=
  match c with
  | Plotter _ _ | add_mesh _ _ _ | get_points _ | np_asarray _
  | add_points _ _ _ _ _ | link_views _ | show_bounds _ | show _ => True
  | _ => False
  end.

Definition calls_of_output (stem : string -> string) (args : Namespace)
           (c : call) : Prop :=
  match c with
  | create_pdb_from_points f _ =>
      f = (stem (molecule args) ++ "_swarms.pdb")%string
  | _ => calls_of_viewer c
  end.

(** Everything the script can call once it holds [meshes[0]]. *)
Definition calls_after_selection (stem : string -> string) (args : Namespace)
           (mesh : obj) (c : call) : Prop :=
  calls_of_initial_smoothing mesh c \/
  calls_of_refinement mesh c \/
  calls_of_export stem args mesh c \/
  (exists obj_name, calls_of_decimation obj_name c) \/
  calls_of_expansion c \/
  calls_of_resampling args c \/
  calls_of_output stem args c.

(** No [splitSurfaces] call of the trace returned. *)
Definition no_split (tr : list event) : Prop :=
  Forall (fun e => split_result e = None) tr.

(** [P] holds of every call in the trace. *)
Definition on_calls (P : call -> Prop) (tr : list event) : Prop :=
  Forall (fun e => P (ev_call e)) tr.

(** No call of the trace is of kind [f]. *)
Definition never (f : call -> bool) (tr : list event) : Prop :=
  on_calls (fun c => f c = false) tr.

(** How many calls of kind [f] the trace holds. *)
Definition count_calls (f : call -> bool) (tr : list event) : nat :=
  List.length (filter f (calls tr)).

(** [shell] is the surface extracted from the decimated mesh. *)
Definition decimated_shell (tr : list event) (shell : obj) : Prop :=
  exists pre mesh decimated post,
    tr = pre ++ Ev (decimate mesh float_0_97 true) (inr decimated)
             :: Ev (extract_surface decimated) (inr shell) :: post.

(** [shell] is the surface handed to the resampling stage. *)
Definition resampled_surface (tr : list event) (shell : obj) : Prop :=
  exists pre expanded_mesh clus post,
    tr = pre ++ Ev (extract_surface shell) (inr expanded_mesh)
             :: Ev (Clustering expanded_mesh) (inr clus) :: post.

(** A stage that ran, to its end or to an exception, or was not
    reached: its share of the trace. *)
Definition may {A : Type} (p : prog A) (tr : list event) : Prop :=
  tr = [] \/ exists o, exec p tr o.

(** A stage ran to its end with result [a]; or the run stopped in it,
    or before it, and nothing follows. *)
Definition reach {A : Type} (p : prog A) (tr later : list event) (a : A)
  : Prop :=
  exec p tr (Normal a) \/ (later = [] /\ may p tr).

Definition is_argparse (c : call) : bool :=
  match c with
  | ArgumentParser _ | add_argument _ _ _ _ _ | parse_args _ => true
  | _ => false
  end.

(** The calls into pygamer: its functions, and the methods and attributes
    of its meshes, ids and data records. *)
Definition is_pygamer (c : call) : bool :=
  match c with
  | readPDB_gauss _ | compute_orientation _ | correctNormals _
  | splitSurfaces _ | getVolume _ | vertexIDs _ | faceIDs _ | data _
  | setattr _ _ _ | smooth _ _ _ _ | coarse_dense _ _ _ | coarse_flat _ _ _
  | nVertices _ | nEdges _ | nFaces _ | getRoot _ | writeOBJ _ _ => true
  | _ => false
  end.

Definition is_print (c : call) : bool :=
  match c with
  | print _ => true
  | _ => false
  end.

Definition is_orientation (c : call) : bool :=
  match c with
  | compute_orientation _ => true
  | _ => false
  end.

Definition is_getVolume (c : call) : bool :=
  match c with
  | getVolume _ => true
  | _ => false
  end.

(** The calls that change the shape of the pygamer mesh. *)
Definition is_refining (c : call) : bool :=
  match c with
  | smooth _ _ _ _ | coarse_dense _ _ _ | coarse_flat _ _ _ => true
  | _ => false
  end.

Definition is_writeOBJ (c : call) : bool :=
  match c with
  | writeOBJ _ _ => true
  | _ => false
  end.

Definition is_pv_read (c : call) : bool :=
  match c with
  | pv_read _ => true
  | _ => false
  end.

(** The calls only the viewer part of the script makes. *)
Definition is_viewer (c : call) : bool :=
  match c with
  | Plotter _ _ | add_mesh _ _ _ | np_asarray _ | add_points _ _ _ _ _
  | link_views _ | show_bounds _ | show _ => true
  | _ => false
  end.

Definition is_cluster (c : call) : bool :=
  match c with
  | cluster _ _ => true
  | _ => false
  end.

(** ** General facts about runs *)

Lemma run_exec {world A : Type} (h : handler world) (p : prog A) :
  forall w tr o w', run h p w = (tr, o, w') -> exec p tr o.
Proof.
  induction p as [a | e | c k IH]; intros w tr o w' Hrun; simpl in Hrun.
  - inversion Hrun; subst; simpl; auto.
  - inversion Hrun; subst; simpl; auto.
  - simpl. destruct (h c w) as [[e | r] w1].
    + inversion Hrun; subst. left. exists e. auto.
    + destruct (run h (k r) w1) as [[tr1 o1] w2] eqn:Hk.
      inversion Hrun; subst. right. exists r, tr1. split; [reflexivity|].
      eapply IH; eauto.
Qed.

Lemma exec_bind_inv {A B : Type} (p : prog A) (f : A -> prog B) :
  forall tr o, exec (bind p f) tr o ->
    (exists e, exec p tr (Raised e) /\ o = Raised e) \/
    (exists a tr1 tr2,
        exec p tr1 (Normal a) /\ exec (f a) tr2 o /\ tr = tr1 ++ tr2).
Proof.
  induction p as [a | e | c k IH]; intros tr o H; simpl in H.
  - right. exists a, [], tr. simpl. auto.
  - destruct H as [-> ->]. left. exists e. simpl. auto.
  - destruct H as [(e & -> & ->) | (r & tr' & -> & H)].
    + left. exists e. split; [|reflexivity]. simpl. left. exists e. auto.
    + destruct (IH r _ _ H) as [(e & He & ->) | (a & tr1 & tr2 & H1 & H2 & ->)].
      * left. exists e. split; [|reflexivity]. simpl. right. exists r, tr'. auto.
      * right. exists a, (Ev c (inr r) :: tr1), tr2. simpl.
        repeat split; auto. right. exists r, tr1. auto.
Qed.

Lemma exec_bind_normal {A B : Type} (p : prog A) (f : A -> prog B) tr b :
  exec (bind p f) tr (Normal b) ->
  exists a tr1 tr2,
    exec p tr1 (Normal a) /\ exec (f a) tr2 (Normal b) /\ tr = tr1 ++ tr2.
Proof.
  intros H. destruct (exec_bind_inv _ _ _ _ H) as [(e & _ & He) | H']; [discriminate|exact H'].
Qed.

Lemma all_calls_bind {A B : Type} (P : call -> Prop) (p : prog A) (f : A -> prog B) :
  all_calls P p -> (forall a, all_calls P (f a)) -> all_calls P (bind p f).
Proof.
  induction p as [a | e | c k IH]; simpl; intros Hp Hf; auto.
  destruct Hp as [Hc Hk]. split; auto.
Qed.

Lemma all_calls_for_in {A S : Type} (P : call -> Prop) (body : A -> S -> prog S) :
  (forall x s, all_calls P (body x s)) ->
  forall l s, all_calls P (for_in l body s).
Proof.
  intros Hb. induction l as [|x l IH]; intros s; simpl; auto.
  apply all_calls_bind; auto.
Qed.

Lemma all_calls_exec {A : Type} (P : call -> Prop) (p : prog A) :
  all_calls P p ->
  forall tr o, exec p tr o -> Forall (fun e => P (ev_call e)) tr.
Proof.
  induction p as [a | e | c k IH]; simpl; intros Hp tr o H.
  - destruct H as [-> _]. constructor.
  - destruct H as [-> _]. constructor.
  - destruct Hp as [Hc Hk].
    destruct H as [(e & -> & _) | (r & tr' & -> & H)].
    + constructor; [exact Hc | constructor].
    + constructor; [exact Hc | eapply IH; eauto].
Qed.

Lemma exec_for_in_normal {A S : Type} (R : A -> S -> list event -> S -> Prop)
      (body : A -> S -> prog S) :
  (forall x s tr s', exec (body x s) tr (Normal s') -> R x s tr s') ->
  forall l s tr s', exec (for_in l body s) tr (Normal s') -> iterated R l s tr s'.
Proof.
  intros Hb. induction l as [|x l IH]; intros s tr s' H.
  - simpl in H. destruct H as [-> H]. inversion H; subst. constructor.
  - simpl in H. apply exec_bind_normal in H.
    destruct H as (s1 & tr1 & tr2 & H1 & H2 & ->).
    econstructor; eauto.
Qed.

(** A call that raised is the last event of the run, and the run ends
    with what it raised. *)
Lemma exec_raised_last {A : Type} (p : prog A) :
  forall tr o, exec p tr o ->
  forall pre e post, tr = pre ++ e :: post -> returned e = false ->
    post = [] /\ exists err, projT2 e = inl err /\ o = Raised err.
Proof.
  induction p as [a | x | c k IH]; simpl; intros tr o H pre e post Htr He.
  - destruct H as [-> _]. destruct pre; discriminate.
  - destruct H as [-> _]. destruct pre; discriminate.
  - destruct H as [(err & -> & ->) | (r & tr' & -> & H)].
    + destruct pre as [|e0 pre].
      * simpl in Htr. inversion Htr; subst. split; [reflexivity|].
        exists err. auto.
      * simpl in Htr. inversion Htr. destruct pre; discriminate.
    + destruct pre as [|e0 pre].
      * simpl in Htr. inversion Htr; subst. discriminate.
      * simpl in Htr. inversion Htr; subst. eapply IH; eauto.
Qed.

(** A run that ends normally saw every call return. *)
Lemma exec_normal_returned {A : Type} (p : prog A) :
  forall tr a, exec p tr (Normal a) -> Forall (fun e => returned e = true) tr.
Proof.
  induction p as [a | x | c k IH]; simpl; intros tr b H.
  - destruct H as [-> _]. constructor.
  - destruct H as [_ H]. discriminate.
  - destruct H as [(err & _ & H) | (r & tr' & -> & H)]; [discriminate|].
    constructor; [reflexivity | eapply IH; eauto].
Qed.

Ltac step H :=
  cbn [exec bind invoke] in H;
  let e := fresh "e" in let r := fresh "r" in let tr := fresh "tr" in
  destruct H as [(e & -> & H) | (r & tr & -> & H)].

(** A call that returned [r], in a run that ended normally. *)
Tactic Notation "call_ok" hyp(H) "as" simple_intropattern(r) :=
  cbn [exec bind invoke] in H;
  let e := fresh "e" in let tr := fresh "tr" in
  destruct H as [(e & _ & H) | (r & tr & -> & H)]; [discriminate H|].

(** A call whose result the script drops. *)
Ltac call_done H := call_ok H as [].

(** A call in a run of any outcome: the case where it raised is closed
    by [t], the run goes on with its result [r]. *)
Tactic Notation "call_or_fail" hyp(H) "as" simple_intropattern(r)
       "by" tactic(t) :=
  cbn [exec bind invoke] in H;
  let e := fresh "e" in let tr := fresh "tr" in
  destruct H as [(e & -> & H) | (r & tr & -> & H)]; [solve [t]|].

Lemma exec_for_each_normal {A : Type} (R : A -> list event -> Prop)
      (body : A -> prog unit) :
  (forall x tr, exec (body x) tr (Normal tt) -> R x tr) ->
  forall l tr u, exec (for_each l body) tr (Normal u) ->
    exists segs, tr = List.concat segs /\ Forall2 R l segs.
Proof.
  intros Hb l tr u H. unfold for_each in H.
  apply (exec_for_in_normal (fun x _ seg _ => R x seg)) in H.
  - clear Hb. induction H as [s | x l' s s1 s2 seg tr' Hx Hit IH].
    + exists []. split; [reflexivity | constructor].
    + destruct IH as (segs & Heq & Hsegs). subst tr'.
      exists (seg :: segs). split; [reflexivity | constructor; assumption].
  - intros x s tr0 [] H0. apply Hb. exact H0.
Qed.

Lemma may_calls {A : Type} (P : call -> Prop) (p : prog A) tr :
  all_calls P p -> may p tr -> Forall (fun e => P (ev_call e)) tr.
Proof.
  intros Hp [-> | (o & H)]; [constructor | eapply all_calls_exec; eauto].
Qed.

Lemma may_exec {A : Type} (p : prog A) tr o : exec p tr o -> may p tr.
Proof. intros H. right. exists o. exact H. Qed.

Lemma may_nil {A : Type} (p : prog A) : may p [].
Proof. left. reflexivity. Qed.

Ltac calls_tac :=
  repeat first
    [ progress cbn [all_calls bind invoke for_each index0 int_of_float]
    | match goal with
      | |- _ /\ _ => split
      | |- forall _, _ => intro
      | |- all_calls _ (bind _ _) => apply all_calls_bind
      | |- all_calls _ (for_in _ _ _) => apply all_calls_for_in
      | |- all_calls _ (for_each _ _) => unfold for_each
      | |- all_calls _ (index0 ?l) => destruct l; simpl
      | |- all_calls _ (match ?x with _ => _ end) => destruct x
      | |- True => exact I
      end ];
  try solve [simpl; repeat split; auto].

(** ** The calls each stage can make *)

Section Stages.

Variable stem : string -> string.

Lemma construction_calls args :
  all_calls (calls_of_construction args) (surface_construction args).
Proof. unfold surface_construction. calls_tac. Qed.

Lemma initial_smoothing_calls mesh :
  all_calls (calls_of_initial_smoothing mesh) (initial_smoothing mesh).
Proof. unfold initial_smoothing. calls_tac. Qed.

Lemma refinement_calls mesh :
  all_calls (calls_of_refinement mesh) (refinement mesh).
Proof. unfold refinement. calls_tac. Qed.

Lemma export_calls args mesh :
  all_calls (calls_of_export stem args mesh) (export_surface stem args mesh).
Proof. unfold export_surface. calls_tac. Qed.

Lemma decimation_calls obj_name :
  all_calls (calls_of_decimation obj_name) (reimport_decimate obj_name).
Proof. unfold reimport_decimate. calls_tac. Qed.

Lemma expansion_step_calls i shell :
  all_calls calls_of_expansion (expansion_step i shell).
Proof. unfold expansion_step. calls_tac. simpl. discriminate. Qed.

Lemma expansion_calls args shell :
  all_calls calls_of_expansion (expansion args shell).
Proof.
  unfold expansion. apply all_calls_bind.
  - unfold int_of_float. destruct (py_int (distance args)); exact I.
  - intros k. apply all_calls_for_in. intros i s. apply expansion_step_calls.
Qed.

Lemma resampling_calls args shell :
  all_calls (calls_of_resampling args) (resampling args shell).
Proof. unfold resampling. calls_tac. Qed.

Lemma output_calls args expanded_mesh shell :
  all_calls (calls_of_output stem args)
            (visualize_and_write stem args expanded_mesh shell).
Proof. unfold visualize_and_write. calls_tac. Qed.

(** ** The trace of each stage when it completes *)

Lemma surface_construction_normal args tr mesh :
  exec (surface_construction args) tr (Normal mesh) ->
  exists whole orient msg rest segs,
    tr = [Ev (readPDB_gauss (molecule args)) (inr whole);
          Ev (compute_orientation whole) (inr orient);
          Ev (correctNormals whole) (inr tt);
          Ev (print msg) (inr tt);
          Ev (splitSurfaces whole) (inr (mesh :: rest))] ++ List.concat segs /\
    Forall2 volume_report (enumerate (mesh :: rest)) segs.
Proof.
  unfold surface_construction. intros H.
  call_ok H as whole. call_ok H as [[components orientable] manifold].
  call_done H. call_done H. call_ok H as meshes.
  apply exec_bind_normal in H. destruct H as (u & tr1 & tr2 & Hloop & Hidx & ->).
  destruct meshes as [|m0 rest]; simpl in Hidx.
  - destruct Hidx as [_ Hidx]. discriminate.
  - destruct Hidx as [-> Hidx]. inversion Hidx; subst m0.
    apply (exec_for_each_normal volume_report) in Hloop.
    + destruct Hloop as (segs & -> & Hsegs). rewrite app_nil_r.
      exists whole, (components, orientable, manifold). eexists.
      exists rest, segs. split; [reflexivity | exact Hsegs].
    + intros [i m] tr0 H0. call_ok H0 as vol. call_done H0.
      destruct H0 as [-> _]. exists vol. reflexivity.
Qed.

Lemma initial_smoothing_normal mesh tr :
  exec (initial_smoothing mesh) tr (Normal tt) ->
  exists vs segs,
    tr = Ev (vertexIDs mesh) (inr vs) :: List.concat segs
         ++ [Ev (smooth mesh 5 false true) (inr tt)] /\
    Forall2 vertex_selected vs segs.
Proof.
  unfold initial_smoothing. intros H. call_ok H as vs.
  apply exec_bind_normal in H. destruct H as (u & tr1 & tr2 & Hloop & H & ->).
  call_done H. destruct H as [-> _].
  apply (exec_for_each_normal vertex_selected) in Hloop.
  - destruct Hloop as (segs & -> & Hsegs). exists vs, segs. auto.
  - intros v tr0 H0. call_ok H0 as d. call_done H0. destruct H0 as [-> _].
    exists d. reflexivity.
Qed.

Lemma refinement_normal mesh tr :
  exec (refinement mesh) tr (Normal tt) ->
  exists segs,
    tr = List.concat segs /\
    Forall2 (refinement_round mesh) (py_range 0 5) segs.
Proof.
  unfold refinement. intros H.
  apply (exec_for_each_normal (refinement_round mesh)) in H; [exact H|].
  intros i tr0 H0. call_done H0. call_done H0. call_done H0.
  call_ok H0 as nv. call_ok H0 as ne. call_ok H0 as nf. call_done H0.
  destruct H0 as [-> _]. exists nv, ne, nf. reflexivity.
Qed.

Lemma export_normal args mesh tr obj_name :
  exec (export_surface stem args mesh) tr (Normal obj_name) ->
  exists fs segs gInfo,
    tr = Ev (faceIDs mesh) (inr fs) :: List.concat segs
         ++ [Ev (getRoot mesh) (inr gInfo);
             Ev (setattr gInfo "ishole" (VBool true)) (inr tt);
             Ev (setattr gInfo "marker" (VInt (-1))) (inr tt);
             Ev (writeOBJ obj_name mesh) (inr tt)] /\
    Forall2 face_marked fs segs /\
    obj_name = (stem (molecule args) ++ ".obj")%string.
Proof.
  unfold export_surface. intros H. call_ok H as fs.
  apply exec_bind_normal in H. destruct H as (u & tr1 & tr2 & Hloop & H & ->).
  call_ok H as gInfo. call_done H. call_done H. call_done H.
  destruct H as [-> H]. inversion H; subst obj_name.
  apply (exec_for_each_normal face_marked) in Hloop.
  - destruct Hloop as (segs & -> & Hsegs). exists fs, segs, gInfo. auto.
  - intros v tr0 H0. call_ok H0 as d. call_done H0. destruct H0 as [-> _].
    exists d. reflexivity.
Qed.

Lemma decimation_normal obj_name tr shell :
  exec (reimport_decimate obj_name) tr (Normal shell) ->
  exists mesh decimated mesh_points n_mesh shell_points n_shell,
    tr = [Ev (pv_read obj_name) (inr mesh);
          Ev (decimate mesh float_0_97 true) (inr decimated);
          Ev (extract_surface decimated) (inr shell);
          Ev (get_points mesh) (inr mesh_points);
          Ev (len mesh_points) (inr n_mesh);
          Ev (get_points shell) (inr shell_points);
          Ev (len shell_points) (inr n_shell);
          Ev (print [Txt "Decimation: "; Int n_mesh; Txt " -> ";
                     Int n_shell]) (inr tt)].
Proof.
  unfold reimport_decimate. intros H.
  call_ok H as mesh. call_ok H as decimated. call_ok H as shell0.
  call_ok H as mesh_points. call_ok H as n_mesh.
  call_ok H as shell_points. call_ok H as n_shell. call_done H.
  destruct H as [-> H]. inversion H; subst shell.
  exists mesh, decimated, mesh_points, n_mesh, shell_points, n_shell.
  reflexivity.
Qed.

Lemma expansion_step_normal i shell tr shell' :
  exec (expansion_step i shell) tr (Normal shell') ->
  expansion_round i shell tr shell'.
Proof.
  unfold expansion_step. intros H.
  call_done H. call_ok H as normals. call_ok H as warp.
  call_done H. call_done H. call_done H. call_done H.
  call_ok H as output. call_ok H as wrapped.
  destruct H as [-> H]. inversion H; subst shell'.
  exists normals, warp, output. reflexivity.
Qed.

Lemma expansion_normal args shell tr shell' :
  exec (expansion args shell) tr (Normal shell') ->
  exists k,
    py_int (distance args) = inr k /\
    iterated expansion_round (py_range 1 (k + 1)) shell tr shell'.
Proof.
  unfold expansion, int_of_float. intros H.
  destruct (py_int (distance args)) as [err | k].
  - simpl in H. destruct H as [_ H]. discriminate.
  - simpl in H. exists k. split; [reflexivity|].
    eapply exec_for_in_normal; [|exact H].
    intros. apply expansion_step_normal. assumption.
Qed.

Lemma resampling_normal args shell tr expanded_mesh uniform :
  exec (resampling args shell) tr (Normal (expanded_mesh, uniform)) ->
  exists clus clustered,
    tr = [Ev (extract_surface shell) (inr expanded_mesh);
          Ev (Clustering expanded_mesh) (inr clus);
          Ev (subdivide clus 3) (inr tt);
          Ev (cluster clus (points args)) (inr tt);
          Ev (create_mesh clus) (inr clustered);
          Ev (extract_surface clustered) (inr uniform)].
Proof.
  unfold resampling. intros H.
  call_ok H as em. call_ok H as clus. call_done H. call_done H.
  call_ok H as clustered. call_ok H as sh.
  destruct H as [-> H]. inversion H; subst.
  exists clus, clustered. reflexivity.
Qed.

Lemma viewer_normal args expanded_mesh uniform tr :
  exec (visualize_and_write stem args expanded_mesh uniform) tr (Normal tt) ->
  exists p shown array pts,
    tr = [Ev (Plotter false (1, 1)) (inr p);
          Ev (add_mesh p uniform None) (inr tt);
          Ev (get_points uniform) (inr shown);
          Ev (np_asarray shown) (inr array);
          Ev (add_points p array "r" float_8_0 true) (inr tt);
          Ev (add_mesh p expanded_mesh (Some true)) (inr tt);
          Ev (link_views p) (inr tt);
          Ev (show_bounds p) (inr tt);
          Ev (show p) (inr tt);
          Ev (get_points uniform) (inr pts);
          Ev (create_pdb_from_points
                (stem (molecule args) ++ "_swarms.pdb")%string pts) (inr tt)].
Proof.
  unfold visualize_and_write. intros H.
  call_ok H as p. call_done H. call_ok H as shown. call_ok H as array.
  call_done H. call_done H. call_done H. call_done H. call_done H.
  call_ok H as pts. call_done H. destruct H as [-> _].
  exists p, shown, array, pts. reflexivity.
Qed.

(** ** The stages of a run *)

Lemma main_block_normal args tr :
  exec (main_block stem args) tr (Normal tt) ->
  exists mesh obj_name shell0 shell1 expanded_mesh uniform
         t1 t2 t3 t4 t5 t6 t7 t8,
    tr = t1 ++ t2 ++ t3 ++ t4 ++ t5 ++ t6 ++ t7 ++ t8 /\
    exec (surface_construction args) t1 (Normal mesh) /\
    exec (initial_smoothing mesh) t2 (Normal tt) /\
    exec (refinement mesh) t3 (Normal tt) /\
    exec (export_surface stem args mesh) t4 (Normal obj_name) /\
    exec (reimport_decimate obj_name) t5 (Normal shell0) /\
    exec (expansion args shell0) t6 (Normal shell1) /\
    exec (resampling args shell1) t7 (Normal (expanded_mesh, uniform)) /\
    exec (visualize_and_write stem args expanded_mesh uniform) t8 (Normal tt).
Proof.
  unfold main_block. intros H.
  apply exec_bind_normal in H. destruct H as (mesh & t1 & r1 & H1 & H & ->).
  apply exec_bind_normal in H. destruct H as ([] & t2 & r2 & H2 & H & ->).
  apply exec_bind_normal in H. destruct H as ([] & t3 & r3 & H3 & H & ->).
  apply exec_bind_normal in H. destruct H as (obj_name & t4 & r4 & H4 & H & ->).
  apply exec_bind_normal in H. destruct H as (shell0 & t5 & r5 & H5 & H & ->).
  apply exec_bind_normal in H. destruct H as (shell1 & t6 & r6 & H6 & H & ->).
  apply exec_bind_normal in H.
  destruct H as ([expanded_mesh uniform] & t7 & t8 & H7 & H8 & ->).
  exists mesh, obj_name, shell0, shell1, expanded_mesh, uniform,
         t1, t2, t3, t4, t5, t6, t7, t8.
  repeat split; assumption.
Qed.

Ltac stages_done :=
  split; [simpl; rewrite ?app_nil_r; reflexivity
         | repeat split; first [eapply may_exec; eassumption | apply may_nil]].

Lemma main_block_any args tr o :
  exec (main_block stem args) tr o ->
  exists mesh obj_name shell0 shell1 expanded_mesh uniform
         t1 t2 t3 t4 t5 t6 t7 t8,
    tr = t1 ++ t2 ++ t3 ++ t4 ++ t5 ++ t6 ++ t7 ++ t8 /\
    may (surface_construction args) t1 /\
    may (initial_smoothing mesh) t2 /\
    may (refinement mesh) t3 /\
    may (export_surface stem args mesh) t4 /\
    may (reimport_decimate obj_name) t5 /\
    may (expansion args shell0) t6 /\
    may (resampling args shell1) t7 /\
    may (visualize_and_write stem args expanded_mesh uniform) t8.
Proof.
  unfold main_block. intros H.
  apply exec_bind_inv in H.
  destruct H as [(e & H1 & ->) | (mesh & t1 & r1 & H1 & H & ->)].
  { exists 0%N, "", 0%N, 0%N, 0%N, 0%N, tr, [], [], [], [], [], [], [].
    stages_done. }
  apply exec_bind_inv in H.
  destruct H as [(e & H2 & ->) | ([] & t2 & r2 & H2 & H & ->)].
  { exists mesh, "", 0%N, 0%N, 0%N, 0%N, t1, r1, [], [], [], [], [], [].
    stages_done. }
  apply exec_bind_inv in H.
  destruct H as [(e & H3 & ->) | ([] & t3 & r3 & H3 & H & ->)].
  { exists mesh, "", 0%N, 0%N, 0%N, 0%N, t1, t2, r2, [], [], [], [], [].
    stages_done. }
  apply exec_bind_inv in H.
  destruct H as [(e & H4 & ->) | (obj_name & t4 & r4 & H4 & H & ->)].
  { exists mesh, "", 0%N, 0%N, 0%N, 0%N, t1, t2, t3, r3, [], [], [], [].
    stages_done. }
  apply exec_bind_inv in H.
  destruct H as [(e & H5 & ->) | (shell0 & t5 & r5 & H5 & H & ->)].
  { exists mesh, obj_name, 0%N, 0%N, 0%N, 0%N, t1, t2, t3, t4, r4, [], [], [].
    stages_done. }
  apply exec_bind_inv in H.
  destruct H as [(e & H6 & ->) | (shell1 & t6 & r6 & H6 & H & ->)].
  { exists mesh, obj_name, shell0, 0%N, 0%N, 0%N, t1, t2, t3, t4, t5, r5, [], [].
    stages_done. }
  apply exec_bind_inv in H.
  destruct H as [(e & H7 & ->) | ([expanded_mesh uniform] & t7 & t8 & H7 & H8 & ->)].
  { exists mesh, obj_name, shell0, shell1, 0%N, 0%N,
           t1, t2, t3, t4, t5, t6, r6, [].
    stages_done. }
  exists mesh, obj_name, shell0, shell1, expanded_mesh, uniform,
         t1, t2, t3, t4, t5, t6, t7, t8.
  stages_done.
Qed.

(** ** Lists and traces *)

Lemma app_cons_unique {X : Type} (Q : X -> Prop) :
  forall A x B pre e post,
    A ++ x :: B = pre ++ e :: post ->
    Forall (fun y => ~ Q y) A -> Forall (fun y => ~ Q y) B -> Q e ->
    pre = A /\ e = x /\ post = B.
Proof.
  induction A as [|a A IH]; intros x B pre e post Heq HA HB He.
  - destruct pre as [|y pre]; simpl in Heq.
    + inversion Heq; subst. auto.
    + inversion Heq; subst. exfalso.
      apply Forall_app in HB. destruct HB as [_ HB]. inversion HB; subst. auto.
  - destruct pre as [|y pre]; simpl in Heq.
    + inversion Heq; subst. inversion HA; subst. contradiction.
    + inversion Heq; subst. inversion HA; subst.
      destruct (IH _ _ _ _ _ H1 H3 HB He) as (-> & -> & ->). auto.
Qed.

Lemma never_not (f : call -> bool) tr :
  never f tr -> Forall (fun e => ~ f (ev_call e) = true) tr.
Proof.
  unfold never, on_calls. apply Forall_impl. intros e H. rewrite H. discriminate.
Qed.

Lemma on_calls_impl (P Q : call -> Prop) tr :
  (forall c, P c -> Q c) -> on_calls P tr -> on_calls Q tr.
Proof. intros HPQ. unfold on_calls. apply Forall_impl. intros e. apply HPQ. Qed.

Lemma on_calls_app (P : call -> Prop) a b :
  on_calls P (a ++ b) <-> on_calls P a /\ on_calls P b.
Proof. unfold on_calls. apply Forall_app. Qed.

Lemma on_calls_nil (P : call -> Prop) : on_calls P [].
Proof. constructor. Qed.

Lemma on_calls_cons (P : call -> Prop) e tr :
  P (ev_call e) -> on_calls P tr -> on_calls P (e :: tr).
Proof. intros. constructor; assumption. Qed.

Lemma stage_on_calls {A : Type} (P Q : call -> Prop) (p : prog A) tr :
  all_calls P p -> (forall c, P c -> Q c) -> may p tr -> on_calls Q tr.
Proof.
  intros Hp HPQ Hm. apply on_calls_impl with (P := P); [exact HPQ|].
  eapply may_calls; eauto.
Qed.

Lemma split_result_call e l :
  split_result e = Some l ->
  is_split (ev_call e) = true /\
  exists whole, e = Ev (splitSurfaces whole) (inr l).
Proof.
  destruct e as [c r]. destruct c; simpl; try discriminate.
  destruct r as [err | l0]; [discriminate|].
  intros H. inversion H; subst. split; [reflexivity|]. eexists. reflexivity.
Qed.

Lemma expansion_rounds_app a b :
  expansion_rounds (a ++ b) = expansion_rounds a ++ expansion_rounds b.
Proof. unfold expansion_rounds. apply flat_map_app. Qed.

Lemma expansion_rounds_none tr :
  on_calls (fun c => announces_round c = None) tr -> expansion_rounds tr = [].
Proof.
  induction 1 as [|e tr He _ IH]; [reflexivity|].
  unfold expansion_rounds in *. simpl. rewrite He. exact IH.
Qed.

Lemma scale_total_app a b : scale_total (a ++ b) = scale_total a + scale_total b.
Proof.
  unfold scale_total. rewrite flat_map_app.
  induction (flat_map _ a) as [|z l IH]; simpl; [reflexivity | lia].
Qed.

Lemma scale_total_none tr : never is_warp tr -> scale_total tr = 0.
Proof.
  induction 1 as [|e tr He _ IH]; [reflexivity|].
  unfold scale_total in *. simpl.
  destruct (ev_call e); simpl in *; try exact IH. discriminate.
Qed.

Lemma count_calls_app f a b :
  count_calls f (a ++ b) = (count_calls f a + count_calls f b)%nat.
Proof.
  unfold count_calls, calls. rewrite map_app, filter_app, length_app. reflexivity.
Qed.

Lemma count_calls_never f tr : never f tr -> count_calls f tr = 0%nat.
Proof.
  induction 1 as [|e tr He _ IH]; [reflexivity|].
  unfold count_calls, calls in *. simpl. rewrite He. exact IH.
Qed.

Lemma py_range_length a b : List.length (py_range a b) = Z.to_nat (b - a).
Proof. unfold py_range. rewrite length_map, length_seq. reflexivity. Qed.

(** A loop that may stop early: one segment per item of a prefix. *)
Lemma exec_for_in_any {A S : Type} (R : A -> list event -> Prop)
      (body : A -> S -> prog S) :
  (forall x s tr o, exec (body x s) tr o -> R x tr) ->
  forall l s tr o, exec (for_in l body s) tr o ->
    exists segs,
      tr = List.concat segs /\
      Forall2 R (firstn (List.length segs) l) segs /\
      (List.length segs <= List.length l)%nat /\
      (forall s', o = Normal s' -> List.length segs = List.length l).
Proof.
  intros Hb. induction l as [|x l IH]; intros s tr o H; simpl in H.
  - destruct H as [-> _]. exists []. simpl. repeat split; auto.
  - apply exec_bind_inv in H.
    destruct H as [(e & H1 & ->) | (s1 & tr1 & tr2 & H1 & H2 & ->)].
    + exists [tr]. simpl. rewrite app_nil_r. repeat split.
      * constructor; [eapply Hb; eauto | constructor].
      * lia.
      * intros s' Hs. discriminate.
    + destruct (IH _ _ _ H2) as (segs & -> & HR & Hlen & Hn).
      exists (tr1 :: segs). simpl. repeat split.
      * constructor; [eapply Hb; eauto | exact HR].
      * lia.
      * intros s' Hs. rewrite (Hn s' Hs). reflexivity.
Qed.

(** ** The expansion loop *)

Ltac by_calls :=
  let c := fresh "c" in
  let H := fresh "H" in
  intros c H; destruct c; simpl in *;
  try contradiction; try reflexivity; try tauto;
  repeat match goal with
         | H : _ \/ _ |- _ => destruct H
         | H : exists _, _ |- _ => destruct H
         | H : False |- _ => contradiction
         end;
  simpl in *; try contradiction; try reflexivity;
  intuition (try discriminate; try congruence).

(** [on_calls Q t] for the share [t] of one stage, from the calls the
    stage can make. *)
Ltac stage_tac :=
  eapply stage_on_calls;
  [ | | first [eassumption | eapply may_exec; eassumption]];
  [ first [ apply construction_calls | apply initial_smoothing_calls
          | apply refinement_calls | apply export_calls
          | apply decimation_calls | apply expansion_calls
          | apply resampling_calls | apply output_calls ]
  | by_calls ].

Ltac stages_tac :=
  unfold never; repeat (apply on_calls_app; split); stage_tac.

Lemma expansion_step_rounds i shell tr o :
  exec (expansion_step i shell) tr o -> expansion_rounds tr = [i].
Proof.
  unfold expansion_step. intros H.
  repeat (step H; [reflexivity|]).
  destruct H as [-> _]. reflexivity.
Qed.

Lemma rounds_of_segments l segs :
  Forall2 (fun i seg => expansion_rounds seg = [i]) l segs ->
  expansion_rounds (List.concat segs) = l.
Proof.
  induction 1 as [|i seg l segs Hseg _ IH]; [reflexivity|].
  simpl. rewrite expansion_rounds_app, Hseg, IH. reflexivity.
Qed.

Lemma expansion_any_rounds args shell tr :
  may (expansion args shell) tr ->
  match py_int (distance args) with
  | inr k =>
      exists j, (j <= Z.to_nat k)%nat /\
                expansion_rounds tr = firstn j (py_range 1 (k + 1))
  | inl _ => tr = []
  end.
Proof.
  intros [-> | (o & H)].
  - destruct (py_int (distance args)); [reflexivity|].
    exists 0%nat. split; [lia | reflexivity].
  - unfold expansion, int_of_float in H.
    destruct (py_int (distance args)) as [err | k]; simpl in H.
    + destruct H as [-> _]. reflexivity.
    + apply (exec_for_in_any (fun i seg => expansion_rounds seg = [i])) in H.
      * destruct H as (segs & -> & HR & Hlen & _).
        exists (List.length segs). rewrite py_range_length in Hlen.
        split; [lia|]. apply rounds_of_segments. exact HR.
      * intros. eapply expansion_step_rounds; eauto.
Qed.

Lemma iterated_rounds l s tr s' :
  iterated expansion_round l s tr s' -> expansion_rounds tr = l.
Proof.
  induction 1 as [s | i l s s1 s2 seg tr Hseg _ IH]; [reflexivity|].
  rewrite expansion_rounds_app, IH.
  destruct Hseg as (normals & warp & output & ->). reflexivity.
Qed.

Lemma iterated_nil_inv {A S : Type} (R : A -> S -> list event -> S -> Prop)
      s tr s' :
  iterated R [] s tr s' -> tr = [] /\ s' = s.
Proof. intros H. inversion H; subst. auto. Qed.

(** The stages other than the expansion announce no round. *)
Lemma stages_announce_no_round args mesh obj_name shell1 expanded_mesh uniform
      t1 t2 t3 t4 t5 t7 t8 :
  may (surface_construction args) t1 ->
  may (initial_smoothing mesh) t2 ->
  may (refinement mesh) t3 ->
  may (export_surface stem args mesh) t4 ->
  may (reimport_decimate obj_name) t5 ->
  may (resampling args shell1) t7 ->
  may (visualize_and_write stem args expanded_mesh uniform) t8 ->
  expansion_rounds (t1 ++ t2 ++ t3 ++ t4 ++ t5) = [] /\
  expansion_rounds (t7 ++ t8) = [].
Proof.
  intros H1 H2 H3 H4 H5 H7 H8.
  split; apply expansion_rounds_none; repeat (apply on_calls_app; split).
  - eapply stage_on_calls; [apply construction_calls | by_calls | eassumption].
  - eapply stage_on_calls; [apply initial_smoothing_calls | by_calls | eassumption].
  - eapply stage_on_calls; [apply refinement_calls | by_calls | eassumption].
  - eapply stage_on_calls; [apply export_calls | by_calls | eassumption].
  - eapply stage_on_calls; [apply decimation_calls | by_calls | eassumption].
  - eapply stage_on_calls; [apply resampling_calls | by_calls | eassumption].
  - eapply stage_on_calls; [apply output_calls | by_calls | eassumption].
Qed.

(** C1 (amended).  The expansion loop runs once per integer from 1 up to
    [int(distance)], the distance truncated toward zero: no round when
    the distance is 0 (the surface handed to the resampling is then the
    decimated shell itself), rounds 1, 2, 3 when it is 3.0, and
    [int(distance)] rounds, not [ceil(distance)], when the distance has a
    fraction.  A run that stops early has entered at most that many
    rounds; when [int] raises (inf, nan) no round is entered and the run
    does not complete. *)
Theorem expansion_runs_int_distance_rounds
        (world : Type) (h : handler world) (w : world) (args : Namespace)
        (tr : list event) (o : outcome unit) (w' : world) :
  run h (main_block stem args) w = (tr, o, w') ->
  match py_int (distance args) with
  | inr k =>
      (List.length (expansion_rounds tr) <= Z.to_nat k)%nat /\
      (o = Normal tt ->
       expansion_rounds tr = py_range 1 (k + 1) /\
       List.length (expansion_rounds tr) = Z.to_nat k /\
       (k <= 0 ->
        exists shell, decimated_shell tr shell /\ resampled_surface tr shell))
  | inl _ => expansion_rounds tr = [] /\ o <> Normal tt
  end.
Proof.
  intros Hrun. apply run_exec in Hrun.
  assert (Hany :
    match py_int (distance args) with
    | inr k => exists j, (j <= Z.to_nat k)%nat /\
                         expansion_rounds tr = firstn j (py_range 1 (k + 1))
    | inl _ => expansion_rounds tr = []
    end).
  { destruct (main_block_any _ _ _ Hrun)
      as (mesh & obj_name & shell0 & shell1 & em & uniform
          & t1 & t2 & t3 & t4 & t5 & t6 & t7 & t8
          & -> & H1 & H2 & H3 & H4 & H5 & H6 & H7 & H8).
    destruct (stages_announce_no_round _ _ _ _ _ _ _ _ _ _ _ _ _
                H1 H2 H3 H4 H5 H7 H8) as [Hpre Hpost].
    assert (Heq : expansion_rounds (t1 ++ t2 ++ t3 ++ t4 ++ t5 ++ t6 ++ t7 ++ t8)
                  = expansion_rounds t6).
    { replace (t1 ++ t2 ++ t3 ++ t4 ++ t5 ++ t6 ++ t7 ++ t8)
        with ((t1 ++ t2 ++ t3 ++ t4 ++ t5) ++ t6 ++ (t7 ++ t8))
        by (repeat rewrite <- app_assoc; reflexivity).
      rewrite expansion_rounds_app, Hpre, expansion_rounds_app, Hpost, app_nil_r. reflexivity. }
    rewrite Heq. pose proof (expansion_any_rounds _ _ _ H6) as Hx.
    destruct (py_int (distance args)); [subst t6; reflexivity | exact Hx]. }
  assert (Hnormal : o = Normal tt ->
    exists k, py_int (distance args) = inr k /\
              expansion_rounds tr = py_range 1 (k + 1) /\
              (k <= 0 -> exists shell,
                  decimated_shell tr shell /\ resampled_surface tr shell)).
  { intros ->.
    destruct (main_block_normal _ _ Hrun)
      as (mesh & obj_name & shell0 & shell1 & em & uniform
          & t1 & t2 & t3 & t4 & t5 & t6 & t7 & t8
          & -> & H1 & H2 & H3 & H4 & H5 & H6 & H7 & H8).
    destruct (expansion_normal _ _ _ _ H6) as (k & Hk & Hit).
    exists k. split; [exact Hk|]. split.
    - destruct (stages_announce_no_round _ _ _ _ _ _ _ _ _ _ _ _ _
                  (may_exec _ _ _ H1) (may_exec _ _ _ H2) (may_exec _ _ _ H3)
                  (may_exec _ _ _ H4) (may_exec _ _ _ H5) (may_exec _ _ _ H7)
                  (may_exec _ _ _ H8)) as [Hpre Hpost].
      replace (t1 ++ t2 ++ t3 ++ t4 ++ t5 ++ t6 ++ t7 ++ t8)
        with ((t1 ++ t2 ++ t3 ++ t4 ++ t5) ++ t6 ++ (t7 ++ t8))
        by (repeat rewrite <- app_assoc; reflexivity).
      rewrite expansion_rounds_app, Hpre, expansion_rounds_app, Hpost, app_nil_r. simpl.
      eapply iterated_rounds; eauto.
    - intros Hk0.
      assert (Hr : py_range 1 (k + 1) = []).
      { unfold py_range. replace (Z.to_nat (k + 1 - 1)) with 0%nat by lia.
        reflexivity. }
      rewrite Hr in Hit. apply iterated_nil_inv in Hit. destruct Hit as [-> ->].
      destruct (decimation_normal _ _ _ H5)
        as (reloaded & decimated & mp & n1 & sp & n2 & ->).
      destruct (resampling_normal _ _ _ _ _ H7) as (clus & clustered & ->).
      exists shell0. split.
      + exists (t1 ++ t2 ++ t3 ++ t4 ++ [Ev (pv_read obj_name) (inr reloaded)]),
               reloaded, decimated.
        eexists. repeat rewrite <- app_assoc. simpl. reflexivity.
      + exists (t1 ++ t2 ++ t3 ++ t4 ++
                [Ev (pv_read obj_name) (inr reloaded);
                 Ev (decimate reloaded float_0_97 true) (inr decimated);
                 Ev (extract_surface decimated) (inr shell0);
                 Ev (get_points reloaded) (inr mp);
                 Ev (len mp) (inr n1);
                 Ev (get_points shell0) (inr sp);
                 Ev (len sp) (inr n2);
                 Ev (print [Txt "Decimation: "; Int n1; Txt " -> "; Int n2])
                    (inr tt)]), em, clus.
        eexists. repeat rewrite <- app_assoc. simpl. reflexivity. }
  destruct (py_int (distance args)) as [err | k].
  - split; [exact Hany|]. intros Ho.
    destruct (Hnormal Ho) as (k & Hk & _). discriminate.
  - destruct Hany as (j & Hj & Hrounds). split.
    + rewrite Hrounds, length_firstn. lia.
    + intros Ho. destruct (Hnormal Ho) as (k' & Hk & Hr & Hshell).
      inversion Hk; subst k'. repeat split.
      * exact Hr.
      * rewrite Hr, py_range_length. f_equal. lia.
      * exact Hshell.
Qed.

Lemma iterated_scale l s tr s' :
  iterated expansion_round l s tr s' ->
  scale_total tr = 2 * Z.of_nat (List.length l).
Proof.
  induction 1 as [s | i l s s1 s2 seg tr Hseg _ IH]; [reflexivity|].
  rewrite scale_total_app, IH.
  destruct Hseg as (normals & warp & output & ->).
  unfold scale_total at 1. simpl List.length. simpl fold_right. lia.
Qed.

(** C2.  Each round of the expansion loop recomputes the normals of the
    current shell and warps that result along its NORMALS array with
    scale factor 2, whatever distance was requested; the scale factors
    add up to [2 * int(distance)] for a distance that is not negative
    (no round runs for a negative one).  The rounds start from the
    decimated shell and their result is the surface that is resampled. *)
Theorem expansion_round_warps_by_two
        (world : Type) (h : handler world) (w : world) (args : Namespace)
        (tr : list event) (w' : world) (k : Z) :
  run h (main_block stem args) w = (tr, Normal tt, w') ->
  py_int (distance args) = inr k ->
  exists pre seg post shell0 shell1,
    tr = pre ++ seg ++ post /\
    iterated expansion_round (py_range 1 (k + 1)) shell0 seg shell1 /\
    never is_warp pre /\ never is_warp post /\
    decimated_shell pre shell0 /\ resampled_surface post shell1 /\
    scale_total tr = 2 * Z.max 0 k /\
    (0 <= k -> scale_total tr = 2 * k).
Proof.
  intros Hrun Hk. apply run_exec in Hrun.
  destruct (main_block_normal _ _ Hrun)
    as (mesh & obj_name & shell0 & shell1 & em & uniform
        & t1 & t2 & t3 & t4 & t5 & t6 & t7 & t8
        & -> & H1 & H2 & H3 & H4 & H5 & H6 & H7 & H8).
  destruct (expansion_normal _ _ _ _ H6) as (k' & Hk' & Hit).
  rewrite Hk in Hk'. inversion Hk'; subst k'.
  assert (Hpre : never is_warp (t1 ++ t2 ++ t3 ++ t4 ++ t5)) by stages_tac.
  assert (Hpost : never is_warp (t7 ++ t8)) by stages_tac.
  assert (Htotal : scale_total (t1 ++ t2 ++ t3 ++ t4 ++ t5 ++ t6 ++ t7 ++ t8)
                   = 2 * Z.max 0 k).
  { replace (t1 ++ t2 ++ t3 ++ t4 ++ t5 ++ t6 ++ t7 ++ t8)
      with ((t1 ++ t2 ++ t3 ++ t4 ++ t5) ++ t6 ++ (t7 ++ t8))
      by (repeat rewrite <- app_assoc; reflexivity).
    rewrite scale_total_app, (scale_total_none _ Hpre).
    rewrite scale_total_app, (scale_total_none _ Hpost).
    rewrite (iterated_scale _ _ _ _ Hit), py_range_length. lia. }
  exists (t1 ++ t2 ++ t3 ++ t4 ++ t5), t6, (t7 ++ t8), shell0, shell1.
  repeat split.
  - repeat rewrite <- app_assoc. reflexivity.
  - exact Hit.
  - exact Hpre.
  - exact Hpost.
  - destruct (decimation_normal _ _ _ H5)
      as (reloaded & decimated & mp & n1 & sp & n2 & ->).
    exists (t1 ++ t2 ++ t3 ++ t4 ++ [Ev (pv_read obj_name) (inr reloaded)]),
           reloaded, decimated.
    eexists. repeat rewrite <- app_assoc. simpl. reflexivity.
  - destruct (resampling_normal _ _ _ _ _ H7) as (clus & clustered & ->).
    exists [], em, clus. eexists. simpl. reflexivity.
  - exact Htotal.
  - intros Hk0. rewrite Htotal. lia.
Qed.

(** ** The refinement loop *)

Lemma refinement_any_rounds mesh tr :
  may (refinement mesh) tr -> (count_calls is_coarse_dense tr <= 5)%nat.
Proof.
  intros [-> | (o & H)]; [unfold count_calls; simpl; lia|].
  unfold refinement, for_each in H.
  apply (exec_for_in_any (fun _ seg => count_calls is_coarse_dense seg = 1%nat))
    in H.
  - destruct H as (segs & -> & HR & Hlen & _).
    rewrite py_range_length in Hlen.
    assert (Hc : count_calls is_coarse_dense (List.concat segs)
                 = List.length segs).
    { clear Hlen. induction HR as [|i seg l segs Hseg _ IH]; [reflexivity|].
      simpl. rewrite count_calls_app, Hseg, IH. reflexivity. }
    rewrite Hc. simpl in Hlen. lia.
  - intros i s tr0 o0 H0.
    repeat (step H0; [reflexivity|]). destruct H0 as [-> _]. reflexivity.
Qed.

Lemma refinement_rounds_count mesh l segs :
  Forall2 (refinement_round mesh) l segs ->
  count_calls is_coarse_dense (List.concat segs) = List.length segs.
Proof.
  induction 1 as [|i seg l segs Hseg _ IH]; [reflexivity|].
  simpl. rewrite count_calls_app, IH.
  destruct Hseg as (nv & ne & nf & ->). reflexivity.
Qed.

(** C4.  The refinement stage is [for i in range(5)]: a run that
    completes has exactly five rounds, each made of
    [coarse_dense(rate=2, numiter=3)], [coarse_flat(rate=0.1, numiter=3)]
    and [smooth(max_iter=3, preserve_ridges=True)] in this order, followed
    by the report of the mesh size; whatever sizes the mesh reports, the
    count stays five, and no run enters more than five rounds. *)
Theorem refinement_is_five_fixed_rounds
        (world : Type) (h : handler world) (w : world) (args : Namespace)
        (tr : list event) (o : outcome unit) (w' : world) :
  run h (main_block stem args) w = (tr, o, w') ->
  (count_calls is_coarse_dense tr <= 5)%nat /\
  (o = Normal tt ->
   exists mesh pre segs post,
     tr = pre ++ List.concat segs ++ post /\
     Forall2 (refinement_round mesh) (py_range 0 5) segs /\
     List.length segs = 5%nat /\
     never is_coarsening pre /\ never is_coarsening post /\
     count_calls is_coarse_dense tr = 5%nat).
Proof.
  intros Hrun. apply run_exec in Hrun.
  assert (Hany : (count_calls is_coarse_dense tr <= 5)%nat).
  { destruct (main_block_any _ _ _ Hrun)
      as (mesh & obj_name & shell0 & shell1 & em & uniform
          & t1 & t2 & t3 & t4 & t5 & t6 & t7 & t8
          & -> & H1 & H2 & H3 & H4 & H5 & H6 & H7 & H8).
    assert (Hpre : never is_coarse_dense (t1 ++ t2)) by stages_tac.
    assert (Hpost : never is_coarse_dense (t4 ++ t5 ++ t6 ++ t7 ++ t8))
      by stages_tac.
    replace (t1 ++ t2 ++ t3 ++ t4 ++ t5 ++ t6 ++ t7 ++ t8)
      with ((t1 ++ t2) ++ t3 ++ (t4 ++ t5 ++ t6 ++ t7 ++ t8))
      by (repeat rewrite <- app_assoc; reflexivity).
    rewrite count_calls_app, (count_calls_never _ _ Hpre).
    rewrite count_calls_app, (count_calls_never _ _ Hpost).
    pose proof (refinement_any_rounds _ _ H3). lia. }
  split; [exact Hany|]. intros ->.
  destruct (main_block_normal _ _ Hrun)
    as (mesh & obj_name & shell0 & shell1 & em & uniform
        & t1 & t2 & t3 & t4 & t5 & t6 & t7 & t8
        & -> & H1 & H2 & H3 & H4 & H5 & H6 & H7 & H8).
  destruct (refinement_normal _ _ H3) as (segs & -> & Hsegs).
  assert (Hpre : never is_coarsening (t1 ++ t2)) by stages_tac.
  assert (Hpost : never is_coarsening (t4 ++ t5 ++ t6 ++ t7 ++ t8))
    by stages_tac.
  assert (Hlen : List.length segs = 5%nat).
  { apply Forall2_length in Hsegs. rewrite <- Hsegs. reflexivity. }
  exists mesh, (t1 ++ t2), segs, (t4 ++ t5 ++ t6 ++ t7 ++ t8).
  repeat split; auto.
  - repeat rewrite <- app_assoc. reflexivity.
  - assert (Hpre' : never is_coarse_dense (t1 ++ t2)) by stages_tac.
    assert (Hpost' : never is_coarse_dense (t4 ++ t5 ++ t6 ++ t7 ++ t8))
      by stages_tac.
    replace (t1 ++ t2 ++ List.concat segs ++ t4 ++ t5 ++ t6 ++ t7 ++ t8)
      with ((t1 ++ t2) ++ List.concat segs ++ (t4 ++ t5 ++ t6 ++ t7 ++ t8))
      by (repeat rewrite <- app_assoc; reflexivity).
    rewrite count_calls_app, (count_calls_never _ _ Hpre').
    rewrite count_calls_app, (count_calls_never _ _ Hpost').
    rewrite (refinement_rounds_count _ _ _ Hsegs), Hlen. reflexivity.
Qed.

(** ** The decimation *)

Ltac list_eq :=
  repeat first [rewrite <- app_assoc | progress cbn [app]]; reflexivity.

(** C5.  The file written by [writeOBJ] is read back and the mesh read is
    decimated with target reduction 0.97 and volume preservation on.  The
    two parameters are literals: every [decimate] call of every run, for
    every command line, carries them, and a run that completes decimates
    once. *)
Theorem decimation_is_fixed_97_percent
        (world : Type) (h : handler world) (w : world) (args : Namespace)
        (tr : list event) (o : outcome unit) (w' : world) :
  run h (main_block stem args) w = (tr, o, w') ->
  on_calls (fun c => forall m ratio keep,
                c = decimate m ratio keep ->
                ratio = float_0_97 /\ keep = true) tr /\
  (o = Normal tt ->
   exists pre mesh reloaded decimated shell post,
     tr = pre
          ++ [Ev (writeOBJ (stem (molecule args) ++ ".obj")%string mesh) (inr tt);
              Ev (pv_read (stem (molecule args) ++ ".obj")%string) (inr reloaded);
              Ev (decimate reloaded float_0_97 true) (inr decimated);
              Ev (extract_surface decimated) (inr shell)]
          ++ post /\
     never is_decimate pre /\ never is_decimate post).
Proof.
  intros Hrun. apply run_exec in Hrun. split.
  - destruct (main_block_any _ _ _ Hrun)
      as (mesh & obj_name & shell0 & shell1 & em & uniform
          & t1 & t2 & t3 & t4 & t5 & t6 & t7 & t8
          & -> & H1 & H2 & H3 & H4 & H5 & H6 & H7 & H8).
    stages_tac.
  - intros ->.
    destruct (main_block_normal _ _ Hrun)
      as (mesh & obj_name & shell0 & shell1 & em & uniform
          & t1 & t2 & t3 & t4 & t5 & t6 & t7 & t8
          & -> & H1 & H2 & H3 & H4 & H5 & H6 & H7 & H8).
    assert (Hpre : never is_decimate (t1 ++ t2 ++ t3 ++ t4)) by stages_tac.
    assert (Hpost : never is_decimate (t6 ++ t7 ++ t8)) by stages_tac.
    destruct (export_normal _ _ _ _ H4) as (fs & segs & gInfo & -> & _ & ->).
    destruct (decimation_normal _ _ _ H5)
      as (reloaded & decimated & mp & n1 & sp & n2 & ->).
    exists (t1 ++ t2 ++ t3 ++ Ev (faceIDs mesh) (inr fs) :: List.concat segs
            ++ [Ev (getRoot mesh) (inr gInfo);
                Ev (setattr gInfo "ishole" (VBool true)) (inr tt);
                Ev (setattr gInfo "marker" (VInt (-1))) (inr tt)]),
           mesh, reloaded, decimated, shell0.
    eexists. split; [list_eq|]. split.
    + unfold never in *. rewrite !on_calls_app in Hpre.
      destruct Hpre as (P1 & P2 & P3 & P4).
      repeat (apply on_calls_app; split); auto.
      inversion P4 as [|x l Px Pl]; subst.
      apply on_calls_cons; [exact Px|].
      apply Forall_app in Pl. destruct Pl as [Pa Pb].
      apply on_calls_app. split; [exact Pa|].
      repeat (apply on_calls_cons; [reflexivity|]). apply on_calls_nil.
    + unfold never in *.
      repeat (apply on_calls_cons; [reflexivity|]). exact Hpost.
Qed.

(** ** The resampling and the output *)

(** The last stage, however it ends: either it never reached the point
    file, or it made ten calls, the ninth being [show()] returning, and
    then called [create_pdb_from_points]. *)
Lemma output_any args expanded_mesh uniform tr o :
  exec (visualize_and_write stem args expanded_mesh uniform) tr o ->
  never is_write tr \/
  exists p shown array pts r,
    tr = [Ev (Plotter false (1, 1)) (inr p);
          Ev (add_mesh p uniform None) (inr tt);
          Ev (get_points uniform) (inr shown);
          Ev (np_asarray shown) (inr array);
          Ev (add_points p array "r" float_8_0 true) (inr tt);
          Ev (add_mesh p expanded_mesh (Some true)) (inr tt);
          Ev (link_views p) (inr tt);
          Ev (show_bounds p) (inr tt);
          Ev (show p) (inr tt);
          Ev (get_points uniform) (inr pts)]
         ++ [Ev (create_pdb_from_points
                   (stem (molecule args) ++ "_swarms.pdb")%string pts) r].
Proof.
  unfold visualize_and_write. intros H.
  call_or_fail H as p by (left; repeat constructor).
  call_or_fail H as [] by (left; repeat constructor).
  call_or_fail H as shown by (left; repeat constructor).
  call_or_fail H as array by (left; repeat constructor).
  call_or_fail H as [] by (left; repeat constructor).
  call_or_fail H as [] by (left; repeat constructor).
  call_or_fail H as [] by (left; repeat constructor).
  call_or_fail H as [] by (left; repeat constructor).
  call_or_fail H as [] by (left; repeat constructor).
  call_or_fail H as pts by (left; repeat constructor).
  right. exists p, shown, array, pts.
  cbn [exec bind invoke] in H.
  destruct H as [(e & -> & _) | ([] & tr0 & -> & -> & _)];
    eexists; reflexivity.
Qed.

(** C6.  The resampling stage takes the expanded surface, subdivides the
    clustering 3 times in one [subdivide(3)] call, clusters it into
    [args.points] regions, and builds the mesh of the clusters; the points
    written to the point file are the [points] of that mesh. *)
Theorem resampling_subdivides_three_then_clusters
        (world : Type) (h : handler world) (w : world) (args : Namespace)
        (tr : list event) (w' : world) :
  run h (main_block stem args) w = (tr, Normal tt, w') ->
  exists pre shell expanded_mesh clus clustered uniform viewer pts,
    tr = pre
         ++ [Ev (extract_surface shell) (inr expanded_mesh);
             Ev (Clustering expanded_mesh) (inr clus);
             Ev (subdivide clus 3) (inr tt);
             Ev (cluster clus (points args)) (inr tt);
             Ev (create_mesh clus) (inr clustered);
             Ev (extract_surface clustered) (inr uniform)]
         ++ viewer
         ++ [Ev (get_points uniform) (inr pts);
             Ev (create_pdb_from_points
                   (stem (molecule args) ++ "_swarms.pdb")%string pts) (inr tt)] /\
    never is_clustering pre /\ never is_clustering viewer /\
    never is_write pre /\ never is_write viewer /\
    exists k before seg shell0,
      py_int (distance args) = inr k /\
      pre = before ++ seg /\
      iterated expansion_round (py_range 1 (k + 1)) shell0 seg shell.
Proof.
  intros Hrun. apply run_exec in Hrun.
  destruct (main_block_normal _ _ Hrun)
    as (mesh & obj_name & shell0 & shell1 & em & uniform
        & t1 & t2 & t3 & t4 & t5 & t6 & t7 & t8
        & -> & H1 & H2 & H3 & H4 & H5 & H6 & H7 & H8).
  assert (Hc : never is_clustering (t1 ++ t2 ++ t3 ++ t4 ++ t5 ++ t6))
    by stages_tac.
  assert (Hw : never is_write (t1 ++ t2 ++ t3 ++ t4 ++ t5 ++ t6))
    by stages_tac.
  destruct (expansion_normal _ _ _ _ H6) as (k & Hk & Hit).
  destruct (resampling_normal _ _ _ _ _ H7) as (clus & clustered & ->).
  destruct (viewer_normal _ _ _ _ H8) as (p & shown & array & pts & ->).
  exists (t1 ++ t2 ++ t3 ++ t4 ++ t5 ++ t6), shell1, em, clus, clustered, uniform.
  exists [Ev (Plotter false (1, 1)) (inr p);
          Ev (add_mesh p uniform None) (inr tt);
          Ev (get_points uniform) (inr shown);
          Ev (np_asarray shown) (inr array);
          Ev (add_points p array "r" float_8_0 true) (inr tt);
          Ev (add_mesh p em (Some true)) (inr tt);
          Ev (link_views p) (inr tt);
          Ev (show_bounds p) (inr tt);
          Ev (show p) (inr tt)], pts.
  split; [list_eq|].
  split; [exact Hc|]. split; [repeat constructor|].
  split; [exact Hw|]. split; [repeat constructor|].
  exists k, (t1 ++ t2 ++ t3 ++ t4 ++ t5), t6, shell0.
  split; [exact Hk|]. split; [list_eq | exact Hit].
Qed.

(** C7.  The point file is named [<stem>_swarms.pdb], the stem being
    that of the input path: every call of [create_pdb_from_points] in
    every run has this file name, and a run that completes ends with
    that call. *)
Theorem point_file_is_stem_swarms
        (world : Type) (h : handler world) (w : world) (args : Namespace)
        (tr : list event) (o : outcome unit) (w' : world) :
  run h (main_block stem args) w = (tr, o, w') ->
  on_calls (fun c => forall f pts,
                c = create_pdb_from_points f pts ->
                f = (stem (molecule args) ++ "_swarms.pdb")%string) tr /\
  (o = Normal tt ->
   exists pre pts,
     tr = pre ++ [Ev (create_pdb_from_points
                        (stem (molecule args) ++ "_swarms.pdb")%string pts)
                     (inr tt)] /\
     never is_write pre).
Proof.
  intros Hrun. apply run_exec in Hrun. split.
  - destruct (main_block_any _ _ _ Hrun)
      as (mesh & obj_name & shell0 & shell1 & em & uniform
          & t1 & t2 & t3 & t4 & t5 & t6 & t7 & t8
          & -> & H1 & H2 & H3 & H4 & H5 & H6 & H7 & H8).
    stages_tac.
  - intros ->.
    destruct (main_block_normal _ _ Hrun)
      as (mesh & obj_name & shell0 & shell1 & em & uniform
          & t1 & t2 & t3 & t4 & t5 & t6 & t7 & t8
          & -> & H1 & H2 & H3 & H4 & H5 & H6 & H7 & H8).
    assert (Hw : never is_write (t1 ++ t2 ++ t3 ++ t4 ++ t5 ++ t6 ++ t7))
      by stages_tac.
    destruct (viewer_normal _ _ _ _ H8) as (p & shown & array & pts & ->).
    exists (t1 ++ t2 ++ t3 ++ t4 ++ t5 ++ t6 ++ t7
            ++ [Ev (Plotter false (1, 1)) (inr p);
                Ev (add_mesh p uniform None) (inr tt);
                Ev (get_points uniform) (inr shown);
                Ev (np_asarray shown) (inr array);
                Ev (add_points p array "r" float_8_0 true) (inr tt);
                Ev (add_mesh p em (Some true)) (inr tt);
                Ev (link_views p) (inr tt);
                Ev (show_bounds p) (inr tt);
                Ev (show p) (inr tt);
                Ev (get_points uniform) (inr pts)]), pts.
    split; [list_eq|].
    unfold never in *. rewrite !on_calls_app in Hw.
    destruct Hw as (P1 & P2 & P3 & P4 & P5 & P6 & P7).
    repeat (apply on_calls_app; split); auto. repeat constructor.
Qed.

(** C8.  The point file is written only after the viewer has returned:
    in every run, a call of [create_pdb_from_points] is the last call of
    the run, no earlier call writes the point file, and [show()] has
    returned before it.  A run that completes ends with that write. *)
Theorem point_file_written_after_show
        (world : Type) (h : handler world) (w : world) (args : Namespace)
        (tr : list event) (o : outcome unit) (w' : world) :
  run h (main_block stem args) w = (tr, o, w') ->
  (forall pre e post,
      tr = pre ++ e :: post -> is_write (ev_call e) = true ->
      post = [] /\ never is_write pre /\
      exists before p between,
        pre = before ++ Ev (show p) (inr tt) :: between) /\
  (o = Normal tt ->
   exists pre e, tr = pre ++ [e] /\ is_write (ev_call e) = true).
Proof.
  intros Hrun. apply run_exec in Hrun. split.
  - intros pre e post Htr He.
    destruct (main_block_any _ _ _ Hrun)
      as (mesh & obj_name & shell0 & shell1 & em & uniform
          & t1 & t2 & t3 & t4 & t5 & t6 & t7 & t8
          & -> & H1 & H2 & H3 & H4 & H5 & H6 & H7 & H8).
    assert (Hw : never is_write (t1 ++ t2 ++ t3 ++ t4 ++ t5 ++ t6 ++ t7))
      by stages_tac.
    assert (Habsurd : never is_write t8 -> False).
    { intros Hn.
      assert (Hall : never is_write (pre ++ e :: post)).
      { rewrite <- Htr. unfold never in *.
        replace (t1 ++ t2 ++ t3 ++ t4 ++ t5 ++ t6 ++ t7 ++ t8)
          with ((t1 ++ t2 ++ t3 ++ t4 ++ t5 ++ t6 ++ t7) ++ t8) by list_eq.
        apply on_calls_app. auto. }
      apply on_calls_app in Hall. destruct Hall as [_ Hall].
      inversion Hall; subst. congruence. }
    destruct H8 as [-> | (o8 & H8)]; [exfalso; apply Habsurd; constructor|].
    destruct (output_any _ _ _ _ _ H8)
      as [Hn | (p & shown & array & pts & r & ->)];
      [exfalso; apply Habsurd; exact Hn|].
    clear Habsurd.
    set (before := [Ev (Plotter false (1, 1)) (inr p);
                    Ev (add_mesh p uniform None) (inr tt);
                    Ev (get_points uniform) (inr shown);
                    Ev (np_asarray shown) (inr array);
                    Ev (add_points p array "r" float_8_0 true) (inr tt);
                    Ev (add_mesh p em (Some true)) (inr tt);
                    Ev (link_views p) (inr tt);
                    Ev (show_bounds p) (inr tt)]) in *.
    set (between := [Ev (get_points uniform) (inr pts)]) in *.
    assert (Hfront : never is_write (before ++ Ev (show p) (inr tt) :: between))
      by (repeat constructor).
    assert (Hjoin : never is_write
              ((t1 ++ t2 ++ t3 ++ t4 ++ t5 ++ t6 ++ t7)
               ++ before ++ Ev (show p) (inr tt) :: between)).
    { apply on_calls_app. auto. }
    assert (Heq : ((t1 ++ t2 ++ t3 ++ t4 ++ t5 ++ t6 ++ t7)
                   ++ before ++ Ev (show p) (inr tt) :: between)
                  ++ Ev (create_pdb_from_points
                           (stem (molecule args) ++ "_swarms.pdb")%string pts) r
                     :: []
                  = pre ++ e :: post).
    { rewrite <- Htr. subst before between. list_eq. }
    destruct (app_cons_unique (fun x => is_write (ev_call x) = true)
                _ _ _ _ _ _ Heq (never_not _ _ Hjoin)
                (Forall_nil _) He) as (-> & _ & ->).
    split; [reflexivity|]. split; [exact Hjoin|].
    exists ((t1 ++ t2 ++ t3 ++ t4 ++ t5 ++ t6 ++ t7) ++ before), p, between.
    list_eq.
  - intros ->.
    destruct (main_block_normal _ _ Hrun)
      as (mesh & obj_name & shell0 & shell1 & em & uniform
          & t1 & t2 & t3 & t4 & t5 & t6 & t7 & t8
          & -> & H1 & H2 & H3 & H4 & H5 & H6 & H7 & H8).
    destruct (viewer_normal _ _ _ _ H8) as (p & shown & array & pts & ->).
    eexists. eexists. split.
    + repeat rewrite app_assoc.
      change [Ev (Plotter false (1, 1)) (inr p);
              Ev (add_mesh p uniform None) (inr tt);
              Ev (get_points uniform) (inr shown);
              Ev (np_asarray shown) (inr array);
              Ev (add_points p array "r" float_8_0 true) (inr tt);
              Ev (add_mesh p em (Some true)) (inr tt);
              Ev (link_views p) (inr tt);
              Ev (show_bounds p) (inr tt);
              Ev (show p) (inr tt);
              Ev (get_points uniform) (inr pts);
              Ev (create_pdb_from_points
                    (stem (molecule args) ++ "_swarms.pdb")%string pts) (inr tt)]
        with ([Ev (Plotter false (1, 1)) (inr p);
               Ev (add_mesh p uniform None) (inr tt);
               Ev (get_points uniform) (inr shown);
               Ev (np_asarray shown) (inr array);
               Ev (add_points p array "r" float_8_0 true) (inr tt);
               Ev (add_mesh p em (Some true)) (inr tt);
               Ev (link_views p) (inr tt);
               Ev (show_bounds p) (inr tt);
               Ev (show p) (inr tt);
               Ev (get_points uniform) (inr pts)]
              ++ [Ev (create_pdb_from_points
                        (stem (molecule args) ++ "_swarms.pdb")%string pts)
                     (inr tt)]).
      rewrite app_assoc. reflexivity.
    + reflexivity.
Qed.

(** ** The component kept *)

Lemma all_calls_impl {A : Type} (P Q : call -> Prop) (p : prog A) :
  (forall c, P c -> Q c) -> all_calls P p -> all_calls Q p.
Proof.
  intros HPQ. induction p as [a | e | c k IH]; simpl; auto.
  intros [Hc Hk]. split; auto.
Qed.

Lemma on_calls_no_split tr :
  on_calls (fun c => is_split c = false) tr -> no_split tr.
Proof.
  unfold on_calls, no_split. apply Forall_impl.
  intros [c r] H. destruct c; simpl in *; try reflexivity. discriminate.
Qed.

Lemma no_split_app a b : no_split a -> no_split b -> no_split (a ++ b).
Proof. intros Ha Hb. apply Forall_app. auto. Qed.

(** The first stage, however it ends: either [splitSurfaces] did not
    return, or it returned [meshes], only the volume reports follow, and
    the stage ends with [meshes[0]] or with IndexError. *)
Lemma construction_any args tr o :
  exec (surface_construction args) tr o ->
  (no_split tr /\ exists err, o = Raised err) \/
  (exists front whole meshes reports,
      tr = front ++ Ev (splitSurfaces whole) (inr meshes) :: reports /\
      no_split front /\ no_split reports /\
      on_calls (fun c => pygamer_target c = None) reports /\
      match meshes with
      | [] => reports = [] /\ o = Raised IndexError
      | first :: _ => forall mesh, o = Normal mesh -> mesh = first
      end).
Proof.
  unfold surface_construction. intros H.
  call_or_fail H as whole by (left; split; [repeat constructor | eauto]).
  call_or_fail H as [[components orientable] manifold]
    by (left; split; [repeat constructor | eauto]).
  call_or_fail H as [] by (left; split; [repeat constructor | eauto]).
  call_or_fail H as [] by (left; split; [repeat constructor | eauto]).
  call_or_fail H as meshes by (left; split; [repeat constructor | eauto]).
  right. match type of H with exec _ ?t _ => rename t into tr3 end.
  exists [Ev (readPDB_gauss (molecule args)) (inr whole);
          Ev (compute_orientation whole)
             (inr (components, orientable, manifold));
          Ev (correctNormals whole) (inr tt);
          Ev (print [Txt "The mesh has "; Int components;
                     Txt " components, is"; Txt " ";
                     Txt (if orientable then "orientable" else "non-orientable");
                     Txt ", and is"; Txt " ";
                     Txt (if manifold then "manifold" else "non-manifold");
                     Txt "."]) (inr tt)],
         whole, meshes, tr3.
  split; [reflexivity|]. split; [repeat constructor|].
  assert (Hcalls : on_calls (fun c => is_split c = false /\
                                      pygamer_target c = None) tr3).
  { eapply all_calls_exec; [|exact H]. calls_tac. }
  split; [|split].
  - apply on_calls_no_split. revert Hcalls. apply on_calls_impl. tauto.
  - revert Hcalls. apply on_calls_impl. tauto.
  - destruct meshes as [|first rest].
    + simpl in H. exact H.
    + intros mesh ->. apply exec_bind_normal in H.
      destruct H as (u & tr1 & tr2 & _ & Hidx & _).
      simpl in Hidx. destruct Hidx as [_ Hidx]. inversion Hidx. reflexivity.
Qed.

Lemma main_block_after_selection args tr o :
  exec (main_block stem args) tr o ->
  (exists err, exec (surface_construction args) tr (Raised err) /\
               o = Raised err) \/
  (exists mesh t1 rest,
      tr = t1 ++ rest /\
      exec (surface_construction args) t1 (Normal mesh) /\
      on_calls (calls_after_selection stem args mesh) rest).
Proof.
  unfold main_block. intros H. apply exec_bind_inv in H.
  destruct H as [(err & H1 & ->) | (mesh & t1 & rest & H1 & H & ->)].
  - left. exists err. auto.
  - right. exists mesh, t1, rest. split; [reflexivity|]. split; [exact H1|].
    eapply all_calls_exec; [|exact H]. unfold calls_after_selection.
    apply all_calls_bind;
      [eapply all_calls_impl; [|apply initial_smoothing_calls]; tauto|].
    intros _. apply all_calls_bind;
      [eapply all_calls_impl; [|apply refinement_calls]; tauto|].
    intros _. apply all_calls_bind;
      [eapply all_calls_impl; [|apply export_calls]; tauto|].
    intros obj_name. apply all_calls_bind;
      [eapply all_calls_impl; [|apply (decimation_calls obj_name)]; eauto 8|].
    intros shell0. apply all_calls_bind;
      [eapply all_calls_impl; [|apply expansion_calls]; tauto|].
    intros shell1. apply all_calls_bind;
      [eapply all_calls_impl; [|apply resampling_calls]; tauto|].
    intros [em uniform].
    eapply all_calls_impl; [|apply output_calls]. tauto.
Qed.

(** Where the components come from, and what follows them. *)
Lemma main_block_split args tr o :
  exec (main_block stem args) tr o ->
  no_split tr \/
  exists front whole meshes back,
    tr = front ++ Ev (splitSurfaces whole) (inr meshes) :: back /\
    no_split front /\ no_split back /\
    match meshes with
    | [] => back = [] /\ o = Raised IndexError
    | first :: _ =>
        on_calls (fun c => forall m, pygamer_target c = Some m -> m = first)
                 back
    end.
Proof.
  intros H. apply main_block_after_selection in H.
  destruct H as [(err & H1 & ->) | (mesh & t1 & rest & -> & H1 & Hrest)].
  - apply construction_any in H1.
    destruct H1 as [[Hn _] | (front & whole & meshes & reports
                              & -> & Hf & Hr & Ht & Hm)]; [left; exact Hn|].
    right. exists front, whole, meshes, reports.
    split; [reflexivity|]. split; [exact Hf|]. split; [exact Hr|].
    destruct meshes as [|first others].
    + destruct Hm as [-> Hm]. inversion Hm. auto.
    + revert Ht. apply on_calls_impl. intros c Hc m Hcm. congruence.
  - apply construction_any in H1.
    destruct H1 as [[_ (err & Herr)] | (front & whole & meshes & reports
                                        & -> & Hf & Hr & Ht & Hm)];
      [discriminate|].
    destruct meshes as [|first others]; [destruct Hm as [_ Hm]; discriminate|].
    rewrite (Hm mesh eq_refl) in *.
    right. exists front, whole, (first :: others), (reports ++ rest).
    split; [list_eq|]. split; [exact Hf|]. split.
    + apply no_split_app; [exact Hr|]. apply on_calls_no_split.
      revert Hrest. apply on_calls_impl. unfold calls_after_selection. by_calls.
    + apply on_calls_app. split.
      * revert Ht. apply on_calls_impl. intros c Hc m Hcm. congruence.
      * revert Hrest. apply on_calls_impl. unfold calls_after_selection.
        by_calls.
Qed.

Lemma no_split_not tr :
  no_split tr -> Forall (fun e => ~ split_result e <> None) tr.
Proof. unfold no_split. apply Forall_impl. intros e H. rewrite H. auto. Qed.

Lemma in_calls c r tr : In (Ev c r) tr -> In c (calls tr).
Proof. intros H. apply (in_map ev_call) in H. exact H. Qed.

(** C3.  After [splitSurfaces] the script keeps [meshes[0]]: whatever
    components the split returns and whatever volumes they report, every
    later pygamer call that works on a mesh works on the first component,
    and the split is the only one of the run.  A run that completes
    smooths and exports that first component. *)
Theorem first_component_is_kept
        (world : Type) (h : handler world) (w : world) (args : Namespace)
        (tr : list event) (o : outcome unit) (w' : world) :
  run h (main_block stem args) w = (tr, o, w') ->
  (forall pre e post first others,
      tr = pre ++ e :: post ->
      split_result e = Some (first :: others) ->
      on_calls (fun c => forall m, pygamer_target c = Some m -> m = first)
               post /\
      no_split pre /\ no_split post) /\
  (o = Normal tt ->
   exists pre whole first others post,
     tr = pre ++ Ev (splitSurfaces whole) (inr (first :: others)) :: post /\
     In (smooth first 5 false true) (calls post) /\
     In (writeOBJ (stem (molecule args) ++ ".obj")%string first) (calls post)).
Proof.
  intros Hrun. apply run_exec in Hrun. split.
  - intros pre e post first others Htr He.
    destruct (main_block_split _ _ _ Hrun)
      as [Hn | (front & whole & meshes & back & Heq & Hf & Hb & Hm)].
    + exfalso. rewrite Htr in Hn. apply Forall_app in Hn.
      destruct Hn as [_ Hn]. inversion Hn; subst. congruence.
    + rewrite Htr in Heq. symmetry in Heq.
      assert (HQ : split_result e <> None) by congruence.
      destruct (app_cons_unique (fun x => split_result x <> None)
                  _ _ _ _ _ _ Heq (no_split_not _ Hf) (no_split_not _ Hb) HQ)
        as (-> & -> & ->).
      simpl in He. inversion He; subst meshes. auto.
  - intros ->.
    destruct (main_block_normal _ _ Hrun)
      as (mesh & obj_name & shell0 & shell1 & em & uniform
          & t1 & t2 & t3 & t4 & t5 & t6 & t7 & t8
          & -> & H1 & H2 & H3 & H4 & H5 & H6 & H7 & H8).
    destruct (surface_construction_normal _ _ _ H1)
      as (whole & orient & msg & others & rsegs & -> & _).
    destruct (initial_smoothing_normal _ _ H2) as (vs & vsegs & -> & _).
    destruct (export_normal _ _ _ _ H4) as (fs & fsegs & gInfo & -> & _ & ->).
    exists [Ev (readPDB_gauss (molecule args)) (inr whole);
            Ev (compute_orientation whole) (inr orient);
            Ev (correctNormals whole) (inr tt);
            Ev (print msg) (inr tt)], whole, mesh, others.
    eexists. split; [list_eq|]. split.
    + apply (in_calls (smooth mesh 5 false true) (inr tt)).
      repeat first [apply in_eq | apply in_cons | (apply in_or_app; right)].
    + apply (in_calls (writeOBJ (stem (molecule args) ++ ".obj")%string mesh)
                      (inr tt)).
      repeat first [apply in_eq | apply in_cons | (apply in_or_app; right)].
Qed.

(** C9.  When [splitSurfaces] returns an empty list the run ends at
    once with IndexError, raised by [meshes[0]]; and nothing catches a
    failure: a call that raises is the last call of the run, which ends
    with the exception that call raised. *)
Theorem empty_split_raises_index_error
        (world : Type) (h : handler world) (w : world) (args : Namespace)
        (tr : list event) (o : outcome unit) (w' : world) :
  run h (main_block stem args) w = (tr, o, w') ->
  (forall pre e post,
      tr = pre ++ e :: post -> split_result e = Some [] ->
      post = [] /\ o = Raised IndexError) /\
  (forall pre e post err,
      tr = pre ++ e :: post -> raised e = Some err ->
      post = [] /\ o = Raised err).
Proof.
  intros Hrun. apply run_exec in Hrun. split.
  - intros pre e post Htr He.
    destruct (main_block_split _ _ _ Hrun)
      as [Hn | (front & whole & meshes & back & Heq & Hf & Hb & Hm)].
    + exfalso. rewrite Htr in Hn. apply Forall_app in Hn.
      destruct Hn as [_ Hn]. inversion Hn; subst. congruence.
    + rewrite Htr in Heq. symmetry in Heq.
      assert (HQ : split_result e <> None) by congruence.
      destruct (app_cons_unique (fun x => split_result x <> None)
                  _ _ _ _ _ _ Heq (no_split_not _ Hf) (no_split_not _ Hb) HQ)
        as (-> & -> & ->).
      simpl in He. inversion He; subst meshes. exact Hm.
  - intros pre e post err Htr He.
    assert (Hret : returned e = false).
    { unfold returned, raised in *. destruct (projT2 e); [reflexivity|discriminate]. }
    destruct (exec_raised_last _ _ _ Hrun _ _ _ Htr Hret)
      as (-> & err' & Herr & ->).
    unfold raised in He. rewrite Herr in He. inversion He; subst. auto.
Qed.

(** C10.  Between the choice of the component and the first round of the
    refinement loop the script sets [selected = True] on the data of
    every vertex of the chosen mesh, in the order [vertexIDs] lists them,
    and then smooths the mesh once with [max_iter=5] and
    [preserve_ridges=False]; no coarsening comes before. *)
Theorem vertices_selected_then_smoothed_before_refinement
        (world : Type) (h : handler world) (w : world) (args : Namespace)
        (tr : list event) (w' : world) :
  run h (main_block stem args) w = (tr, Normal tt, w') ->
  exists pre whole mesh others reports vs segs post,
    tr = pre ++ Ev (splitSurfaces whole) (inr (mesh :: others)) :: reports
         ++ Ev (vertexIDs mesh) (inr vs) :: List.concat segs
         ++ Ev (smooth mesh 5 false true) (inr tt)
            :: Ev (coarse_dense mesh (NInt 2) 3) (inr tt) :: post /\
    Forall2 vertex_selected vs segs /\
    never is_coarsening pre /\ never is_coarsening reports /\
    on_calls (fun c => pygamer_target c = None) reports.
Proof.
  intros Hrun. apply run_exec in Hrun.
  destruct (main_block_normal _ _ Hrun)
    as (mesh & obj_name & shell0 & shell1 & em & uniform
        & t1 & t2 & t3 & t4 & t5 & t6 & t7 & t8
        & -> & H1 & H2 & H3 & H4 & H5 & H6 & H7 & H8).
  assert (Hc1 : never is_coarsening t1) by stages_tac.
  assert (Hp1 : on_calls (fun c => pygamer_target c = None) t1) by stage_tac.
  destruct (surface_construction_normal _ _ _ H1)
    as (whole & orient & msg & others & rsegs & -> & _).
  destruct (initial_smoothing_normal _ _ H2) as (vs & vsegs & -> & Hvs).
  destruct (refinement_normal _ _ H3) as (segs3 & -> & Hsegs3).
  change (py_range 0 5) with [0; 1; 2; 3; 4] in Hsegs3.
  inversion Hsegs3 as [|i seg l segs' Hseg _]; subst.
  destruct Hseg as (nv & ne & nf & ->).
  apply on_calls_app in Hc1. destruct Hc1 as [Hc1a Hc1b].
  apply on_calls_app in Hp1. destruct Hp1 as [_ Hp1b].
  exists [Ev (readPDB_gauss (molecule args)) (inr whole);
          Ev (compute_orientation whole) (inr orient);
          Ev (correctNormals whole) (inr tt);
          Ev (print msg) (inr tt)], whole, mesh, others,
         (List.concat rsegs), vs, vsegs.
  eexists. split; [list_eq|]. split; [exact Hvs|].
  split; [|split; [exact Hc1b | exact Hp1b]].
  inversion Hc1a as [|x1 l1 P1 Q1]; subst.
  inversion Q1 as [|x2 l2 P2 Q2]; subst.
  inversion Q2 as [|x3 l3 P3 Q3]; subst.
  inversion Q3 as [|x4 l4 P4 Q4]; subst.
  repeat (apply on_calls_cons; [assumption|]). apply on_calls_nil.
Qed.

End Stages.

(** ** The script from its first line *)

Section Whole.

Variable stem : string -> string.

(** [main] parses the command line with five argparse calls and then runs
    [main_block] on the parsed arguments. *)
Lemma main_runs_main_block tr o :
  exec (main stem) tr o ->
  (on_calls (fun c => match c with
                      | ArgumentParser _ | add_argument _ _ _ _ _
                      | parse_args _ => True
                      | _ => False
                      end) tr /\ exists err, o = Raised err) \/
  exists parser args rest,
    tr = [Ev (ArgumentParser "surface-sampler") (inr parser);
          Ev (add_argument parser "molecule" None None
                "PDB file for input structure") (inr tt);
          Ev (add_argument parser "distance" (Some type_float)
                (Some (NFloat float_10_0)) "Distance to surface") (inr tt);
          Ev (add_argument parser "points" (Some type_int)
                (Some (NInt 400)) "Number of points to generate") (inr tt);
          Ev (parse_args parser) (inr args)] ++ rest /\
    exec (main_block stem args) rest o.
Proof.
  unfold main, parse_command_line. intros H.
  call_or_fail H as parser by (left; split; [repeat constructor | eauto]).
  call_or_fail H as [] by (left; split; [repeat constructor | eauto]).
  call_or_fail H as [] by (left; split; [repeat constructor | eauto]).
  call_or_fail H as [] by (left; split; [repeat constructor | eauto]).
  call_or_fail H as args by (left; split; [repeat constructor | eauto]).
  right. exists parser, args. eexists. split; [reflexivity|]. exact H.
Qed.

End Whole.

(** ** [int] and [ceil] on floats *)

(** [int] drops the fraction of the magnitude. *)
Lemma py_int_finite s m e :
  py_int (S754_finite s m e) =
  inr (cond_Zopp s (if e <? 0 then Z.pos m / 2 ^ (- e)
                    else Z.pos m * 2 ^ e)).
Proof.
  simpl. f_equal. f_equal. destruct (Z.ltb_spec e 0).
  - apply Z.shiftl_div_pow2. lia.
  - apply Z.shiftl_mul_pow2. lia.
Qed.

(** On a positive float with a fraction, [ceil] is one more than [int]. *)
Lemma spec_ceil_is_int_plus_one m e k :
  e < 0 -> Z.pos m mod 2 ^ (- e) <> 0 ->
  py_int (S754_finite false m e) = inr k ->
  spec_ceil (S754_finite false m e) = inr (k + 1).
Proof.
  intros He Hfrac Hk. rewrite py_int_finite in Hk.
  destruct (Z.ltb_spec e 0); [|lia]. simpl in Hk. inversion Hk; subst k.
  simpl. f_equal. rewrite Z.shiftl_div_pow2 by lia.
  assert (Hpos : 0 < 2 ^ (- e)) by (apply Z.pow_pos_nonneg; lia).
  change (Z.neg m) with (- Z.pos m).
  rewrite Z.div_opp_l_nz by lia. lia.
Qed.

Example int_of_0 : py_int (float_of_Z 0) = inr 0.
Proof. reflexivity. Qed.

Example int_of_3 : py_int (float_of_Z 3) = inr 3.
Proof. reflexivity. Qed.

Example int_of_2_5 : py_int (float_of_dyadic 5 (-1)) = inr 2.
Proof. reflexivity. Qed.

Example int_of_minus_2_5 : py_int (float_of_dyadic (-5) (-1)) = inr (-2).
Proof. reflexivity. Qed.

Example int_of_inf : py_int (S754_infinity false) = inl OverflowError.
Proof. reflexivity. Qed.

Example literals_are_binary64 :
  valid_binary 53 1024 float_0_1 = true /\
  valid_binary 53 1024 float_0_97 = true /\
  valid_binary 53 1024 float_8_0 = true /\
  valid_binary 53 1024 (float_of_dyadic 5 (-1)) = true.
Proof. repeat split; reflexivity. Qed.

Example range_1_4 : py_range 1 (3 + 1) = [1; 2; 3].
Proof. reflexivity. Qed.

Example range_5 : py_range 0 5 = [0; 1; 2; 3; 4].
Proof. reflexivity. Qed.

Example stem_of_path : posix_stem "/data/1abc.pdb" = "1abc".
Proof. reflexivity. Qed.

Example stem_of_two_suffixes : posix_stem "a/b.tar.gz" = "b.tar".
Proof. reflexivity. Qed.

Example stem_of_hidden_file : posix_stem ".bashrc" = ".bashrc".
Proof. reflexivity. Qed.

(** ** Runs against the example library *)

Lemma run_triple {world A : Type} (h : handler world) (p : prog A) (w : world) :
  run h p w = (trace_of h p w, outcome_of h p w, world_after h p w).
Proof.
  unfold trace_of, outcome_of, world_after.
  destruct (run h p w) as [[tr o] w']. reflexivity.
Qed.

Lemma run_triple_normal {world A : Type} (h : handler world) (p : prog A)
      (w : world) (a : A) :
  outcome_of h p w = Normal a ->
  run h p w = (trace_of h p w, Normal a, world_after h p w).
Proof. intros H. rewrite <- H. apply run_triple. Qed.

(** With distance 3.0 the example run completes after rounds 1, 2, 3; with
    distance 0 it completes without a round. *)
Lemma expansion_runs_int_distance_rounds_witness :
  outcome_of (toy small args_3) (main_block posix_stem args_3) 0%N = Normal tt /\
  expansion_rounds
    (trace_of (toy small args_3) (main_block posix_stem args_3) 0%N)
  = [1; 2; 3] /\
  expansion_rounds
    (trace_of (toy small args_0) (main_block posix_stem args_0) 0%N)
  = [].
Proof.
  assert (H3 : outcome_of (toy small args_3) (main_block posix_stem args_3) 0%N
               = Normal tt) by (vm_compute; reflexivity).
  assert (H0 : outcome_of (toy small args_0) (main_block posix_stem args_0) 0%N
               = Normal tt) by (vm_compute; reflexivity).
  split; [exact H3|]. split.
  - pose proof (expansion_runs_int_distance_rounds posix_stem N
                  (toy small args_3) 0%N args_3 _ _ _ (run_triple _ _ _)) as H.
    change (py_int (distance args_3)) with (@inr exn Z 3) in H.
    destruct H as [_ H]. destruct (H H3) as [Hr _]. exact Hr.
  - pose proof (expansion_runs_int_distance_rounds posix_stem N
                  (toy small args_0) 0%N args_0 _ _ _ (run_triple _ _ _)) as H.
    change (py_int (distance args_0)) with (@inr exn Z 0) in H.
    destruct H as [_ H]. destruct (H H0) as [Hr _]. exact Hr.
Defined.

(** With distance 2.5 the example run completes after rounds 1 and 2,
    while [ceil(2.5)] is 3. *)
Lemma expansion_rounds_not_ceil_of_distance :
  outcome_of (toy small args_2_5) (main_block posix_stem args_2_5) 0%N
  = Normal tt /\
  expansion_rounds
    (trace_of (toy small args_2_5) (main_block posix_stem args_2_5) 0%N)
  = [1; 2] /\
  spec_ceil (distance args_2_5) = inr 3 /\
  inr (Z.of_nat (List.length
         (expansion_rounds
            (trace_of (toy small args_2_5) (main_block posix_stem args_2_5)
                      0%N))))
  <> spec_ceil (distance args_2_5).
Proof.
  split; [vm_compute; reflexivity|].
  split; [vm_compute; reflexivity|].
  split; [vm_compute; reflexivity|].
  vm_compute. discriminate.
Qed.

(** With distance 3.0 the scale factors of the example run add up to 6. *)
Lemma expansion_round_warps_by_two_witness :
  py_int (distance args_3) = inr 3 /\
  scale_total (trace_of (toy small args_3) (main_block posix_stem args_3) 0%N)
  = 6.
Proof.
  split; [reflexivity|].
  assert (H3 : outcome_of (toy small args_3) (main_block posix_stem args_3) 0%N
               = Normal tt) by (vm_compute; reflexivity).
  destruct (expansion_round_warps_by_two posix_stem N (toy small args_3) 0%N
              args_3 _ _ 3 (run_triple_normal _ _ _ _ H3) eq_refl)
    as (pre & seg & post & shell0 & shell1 & _ & _ & _ & _ & _ & _ & _ & Hk).
  apply Hk. lia.
Defined.

(** The example run splits the surface into components 2 and 3 and
    exports component 2. *)
Lemma first_component_is_kept_witness :
  outcome_of (toy small args_3) (main_block posix_stem args_3) 0%N = Normal tt /\
  exists pre whole first others post,
    trace_of (toy small args_3) (main_block posix_stem args_3) 0%N
    = pre ++ Ev (splitSurfaces whole) (inr (first :: others)) :: post /\
    In (smooth first 5 false true) (calls post) /\
    In (writeOBJ (posix_stem (molecule args_3) ++ ".obj")%string first)
       (calls post).
Proof.
  assert (H3 : outcome_of (toy small args_3) (main_block posix_stem args_3) 0%N
               = Normal tt) by (vm_compute; reflexivity).
  split; [exact H3|].
  destruct (first_component_is_kept posix_stem N (toy small args_3) 0%N
              args_3 _ _ _ (run_triple _ _ _)) as [_ H].
  exact (H H3).
Defined.

(** The example run has five refinement rounds. *)
Lemma refinement_is_five_fixed_rounds_witness :
  outcome_of (toy small args_3) (main_block posix_stem args_3) 0%N = Normal tt /\
  count_calls is_coarse_dense
    (trace_of (toy small args_3) (main_block posix_stem args_3) 0%N) = 5%nat.
Proof.
  assert (H3 : outcome_of (toy small args_3) (main_block posix_stem args_3) 0%N
               = Normal tt) by (vm_compute; reflexivity).
  split; [exact H3|].
  destruct (refinement_is_five_fixed_rounds posix_stem N (toy small args_3) 0%N
              args_3 _ _ _ (run_triple _ _ _)) as [_ H].
  destruct (H H3) as (mesh & pre & segs & post & _ & _ & _ & _ & _ & Hc).
  exact Hc.
Defined.

(** The example run decimates once, with 0.97 and volume preservation. *)
Lemma decimation_is_fixed_97_percent_witness :
  outcome_of (toy small args_3) (main_block posix_stem args_3) 0%N = Normal tt /\
  exists pre mesh reloaded decimated shell post,
    trace_of (toy small args_3) (main_block posix_stem args_3) 0%N
    = pre
      ++ [Ev (writeOBJ (posix_stem (molecule args_3) ++ ".obj")%string mesh)
             (inr tt);
          Ev (pv_read (posix_stem (molecule args_3) ++ ".obj")%string)
             (inr reloaded);
          Ev (decimate reloaded float_0_97 true) (inr decimated);
          Ev (extract_surface decimated) (inr shell)]
      ++ post /\
    never is_decimate pre /\ never is_decimate post.
Proof.
  assert (H3 : outcome_of (toy small args_3) (main_block posix_stem args_3) 0%N
               = Normal tt) by (vm_compute; reflexivity).
  split; [exact H3|].
  destruct (decimation_is_fixed_97_percent posix_stem N (toy small args_3) 0%N
              args_3 _ _ _ (run_triple _ _ _)) as [_ H].
  exact (H H3).
Defined.

(** The example run subdivides by 3 and clusters into 400 regions. *)
Lemma resampling_subdivides_three_then_clusters_witness :
  points args_3 = 400 /\
  exists clus,
    In (subdivide clus 3)
       (calls (trace_of (toy small args_3) (main_block posix_stem args_3) 0%N)) /\
    In (cluster clus 400)
       (calls (trace_of (toy small args_3) (main_block posix_stem args_3) 0%N)).
Proof.
  split; [reflexivity|].
  assert (H3 : outcome_of (toy small args_3) (main_block posix_stem args_3) 0%N
               = Normal tt) by (vm_compute; reflexivity).
  destruct (resampling_subdivides_three_then_clusters posix_stem N
              (toy small args_3) 0%N args_3 _ _ (run_triple_normal _ _ _ _ H3))
    as (pre & shell & em & clus & clustered & uniform & viewer & pts
        & Htr & _).
  exists clus. rewrite Htr. split.
  - apply (in_calls (subdivide clus 3) (inr tt)).
    repeat first [apply in_eq | apply in_cons | (apply in_or_app; right)].
  - apply (in_calls (cluster clus 400) (inr tt)).
    repeat first [apply in_eq | apply in_cons | (apply in_or_app; right)].
Defined.

(** The example run on [/data/1abc.pdb] ends by writing [1abc_swarms.pdb]. *)
Lemma point_file_is_stem_swarms_witness :
  outcome_of (toy small args_3) (main_block posix_stem args_3) 0%N = Normal tt /\
  (posix_stem (molecule args_3) ++ "_swarms.pdb")%string = "1abc_swarms.pdb" /\
  exists pre pts,
    trace_of (toy small args_3) (main_block posix_stem args_3) 0%N
    = pre ++ [Ev (create_pdb_from_points
                    (posix_stem (molecule args_3) ++ "_swarms.pdb")%string pts)
                 (inr tt)] /\
    never is_write pre.
Proof.
  assert (H3 : outcome_of (toy small args_3) (main_block posix_stem args_3) 0%N
               = Normal tt) by (vm_compute; reflexivity).
  split; [exact H3|]. split; [reflexivity|].
  destruct (point_file_is_stem_swarms posix_stem N (toy small args_3) 0%N
              args_3 _ _ _ (run_triple _ _ _)) as [_ H].
  exact (H H3).
Defined.

(** In the example run the write is the last call and [show] returned
    before it. *)
Lemma point_file_written_after_show_witness :
  outcome_of (toy small args_3) (main_block posix_stem args_3) 0%N = Normal tt /\
  exists pre e,
    trace_of (toy small args_3) (main_block posix_stem args_3) 0%N
    = pre ++ [e] /\
    is_write (ev_call e) = true /\
    exists before p between, pre = before ++ Ev (show p) (inr tt) :: between.
Proof.
  assert (H3 : outcome_of (toy small args_3) (main_block posix_stem args_3) 0%N
               = Normal tt) by (vm_compute; reflexivity).
  split; [exact H3|].
  destruct (point_file_written_after_show posix_stem N (toy small args_3) 0%N
              args_3 _ _ _ (run_triple _ _ _)) as [Hall Hnormal].
  destruct (Hnormal H3) as (pre & e & Htr & He).
  exists pre, e. split; [exact Htr|]. split; [exact He|].
  destruct (Hall pre e [] Htr He) as (_ & _ & Hshow). exact Hshow.
Defined.

(** Against a library whose split returns no component the run ends with
    IndexError right after the split. *)
Lemma empty_split_raises_index_error_witness :
  split_result (Ev (splitSurfaces 0%N) (inr [])) = Some [] /\
  outcome_of (toy hollow args_3) (main_block posix_stem args_3) 0%N
  = Raised IndexError.
Proof.
  split; [reflexivity|].
  destruct (empty_split_raises_index_error posix_stem N (toy hollow args_3) 0%N
              args_3 _ _ _ (run_triple _ _ _)) as [Hsplit _].
  refine (proj2 (Hsplit
    [Ev (readPDB_gauss "/data/1abc.pdb") (inr 0%N);
     Ev (compute_orientation 0%N) (inr (0, true, true));
     Ev (correctNormals 0%N) (inr tt);
     Ev (print [Txt "The mesh has "; Int 0; Txt " components, is"; Txt " ";
                Txt "orientable"; Txt ", and is"; Txt " "; Txt "manifold";
                Txt "."]) (inr tt)]
    (Ev (splitSurfaces 0%N) (inr [])) [] _ _)).
  - vm_compute. reflexivity.
  - reflexivity.
Defined.

(** In the example run both vertices are selected, then the mesh is
    smoothed, then the first coarsening starts. *)
Lemma vertices_selected_then_smoothed_before_refinement_witness :
  exists pre whole mesh others reports vs segs post,
    trace_of (toy small args_3) (main_block posix_stem args_3) 0%N
    = pre ++ Ev (splitSurfaces whole) (inr (mesh :: others)) :: reports
      ++ Ev (vertexIDs mesh) (inr vs) :: List.concat segs
      ++ Ev (smooth mesh 5 false true) (inr tt)
         :: Ev (coarse_dense mesh (NInt 2) 3) (inr tt) :: post /\
    Forall2 vertex_selected vs segs /\
    never is_coarsening pre /\ never is_coarsening reports /\
    on_calls (fun c => pygamer_target c = None) reports.
Proof.
  assert (H3 : outcome_of (toy small args_3) (main_block posix_stem args_3) 0%N
               = Normal tt) by (vm_compute; reflexivity).
  exact (vertices_selected_then_smoothed_before_refinement posix_stem N
           (toy small args_3) 0%N args_3 _ _ (run_triple_normal _ _ _ _ H3)).
Defined.

(** A library that fails at its thirtieth call: the run ends there with
    the library's exception, and no point file is written. *)
Example failing_library_ends_the_run :
  outcome_of (with_fuse (toy small args_3)) (main_block posix_stem args_3)
             (0%N, Some 30%nat)
  = Raised (OtherError "library failure") /\
  List.length (trace_of (with_fuse (toy small args_3))
                        (main_block posix_stem args_3) (0%N, Some 30%nat))
  = 31%nat /\
  count_calls is_write
    (trace_of (with_fuse (toy small args_3)) (main_block posix_stem args_3)
              (0%N, Some 30%nat)) = 0%nat.
Proof. vm_compute. repeat split; reflexivity. Qed.

(** ** The rest of the script *)

Section Further.

Variable stem : string -> string.

Lemma reach_may {A : Type} (p : prog A) tr later a :
  reach p tr later a -> may p tr.
Proof. intros [H | [_ H]]; [eapply may_exec; exact H | exact H]. Qed.

Lemma reach_normal {A : Type} (p : prog A) tr later a :
  reach p tr later a -> later <> [] -> exec p tr (Normal a).
Proof. intros [H | [H _]] Hl; [exact H | contradiction]. Qed.

Ltac calls_imply :=
  let c := fresh "c" in
  let H := fresh "H" in
  intros c H; destruct c; simpl in *;
  try contradiction; try reflexivity; try tauto;
  repeat match goal with
         | H : _ \/ _ |- _ => destruct H
         | H : exists _, _ |- _ => destruct H
         | H : False |- _ => contradiction
         end;
  simpl in *; try contradiction; try reflexivity;
  intuition (try discriminate; try congruence).

(** The share of one stage, from the calls the stage can make. *)
Ltac stage_share :=
  eapply stage_on_calls;
  [ | | first [ eassumption | eapply may_exec; eassumption
              | eapply reach_may; eassumption ]];
  [ first [ apply construction_calls | apply initial_smoothing_calls
          | apply refinement_calls | apply export_calls
          | apply decimation_calls | apply expansion_calls
          | apply resampling_calls | apply output_calls ]
  | calls_imply ].

Ltac stages_share :=
  unfold never; repeat (apply on_calls_app; split); stage_share.

Ltac lists_agree :=
  repeat first [rewrite <- app_assoc | progress cbn [app]]; reflexivity.

Ltac reach_done :=
  split; [simpl; rewrite ?app_nil_r; reflexivity|];
  repeat split;
  first [ left; eassumption
        | right; split;
          [reflexivity | first [eapply may_exec; eassumption | apply may_nil]]
        | eapply may_exec; eassumption
        | apply may_nil ].

(** The stages of a run, each one reached only through the completed
    stages before it. *)
Lemma main_block_linked args tr o :
  exec (main_block stem args) tr o ->
  exists mesh obj_name shell0 shell1 expanded_mesh uniform
         t1 t2 t3 t4 t5 t6 t7 t8,
    tr = t1 ++ t2 ++ t3 ++ t4 ++ t5 ++ t6 ++ t7 ++ t8 /\
    reach (surface_construction args) t1
          (t2 ++ t3 ++ t4 ++ t5 ++ t6 ++ t7 ++ t8) mesh /\
    reach (initial_smoothing mesh) t2 (t3 ++ t4 ++ t5 ++ t6 ++ t7 ++ t8) tt /\
    reach (refinement mesh) t3 (t4 ++ t5 ++ t6 ++ t7 ++ t8) tt /\
    reach (export_surface stem args mesh) t4 (t5 ++ t6 ++ t7 ++ t8) obj_name /\
    reach (reimport_decimate obj_name) t5 (t6 ++ t7 ++ t8) shell0 /\
    reach (expansion args shell0) t6 (t7 ++ t8) shell1 /\
    reach (resampling args shell1) t7 t8 (expanded_mesh, uniform) /\
    may (visualize_and_write stem args expanded_mesh uniform) t8.
Proof.
  unfold main_block. intros H.
  apply exec_bind_inv in H.
  destruct H as [(e & H1 & ->) | (mesh & t1 & r1 & H1 & H & ->)].
  { exists 0%N, "", 0%N, 0%N, 0%N, 0%N, tr, [], [], [], [], [], [], [].
    reach_done. }
  apply exec_bind_inv in H.
  destruct H as [(e & H2 & ->) | ([] & t2 & r2 & H2 & H & ->)].
  { exists mesh, "", 0%N, 0%N, 0%N, 0%N, t1, r1, [], [], [], [], [], [].
    reach_done. }
  apply exec_bind_inv in H.
  destruct H as [(e & H3 & ->) | ([] & t3 & r3 & H3 & H & ->)].
  { exists mesh, "", 0%N, 0%N, 0%N, 0%N, t1, t2, r2, [], [], [], [], [].
    reach_done. }
  apply exec_bind_inv in H.
  destruct H as [(e & H4 & ->) | (obj_name & t4 & r4 & H4 & H & ->)].
  { exists mesh, "", 0%N, 0%N, 0%N, 0%N, t1, t2, t3, r3, [], [], [], [].
    reach_done. }
  apply exec_bind_inv in H.
  destruct H as [(e & H5 & ->) | (shell0 & t5 & r5 & H5 & H & ->)].
  { exists mesh, obj_name, 0%N, 0%N, 0%N, 0%N, t1, t2, t3, t4, r4, [], [], [].
    reach_done. }
  apply exec_bind_inv in H.
  destruct H as [(e & H6 & ->) | (shell1 & t6 & r6 & H6 & H & ->)].
  { exists mesh, obj_name, shell0, 0%N, 0%N, 0%N, t1, t2, t3, t4, t5, r5, [], [].
    reach_done. }
  apply exec_bind_inv in H.
  destruct H as [(e & H7 & ->) | ([expanded_mesh uniform] & t7 & t8 & H7 & H8 & ->)].
  { exists mesh, obj_name, shell0, shell1, 0%N, 0%N,
           t1, t2, t3, t4, t5, t6, r6, [].
    reach_done. }
  exists mesh, obj_name, shell0, shell1, expanded_mesh, uniform,
         t1, t2, t3, t4, t5, t6, t7, t8.
  reach_done.
Qed.

(** *** A distance below 1 *)

Lemma expansion_idle args shell tr :
  (forall k, py_int (distance args) = inr k -> k <= 0) ->
  may (expansion args shell) tr -> tr = [].
Proof.
  intros Hk [-> | (o & H)]; [reflexivity|].
  unfold expansion, int_of_float in H.
  destruct (py_int (distance args)) as [err | k]; simpl in H.
  - destruct H as [-> _]. reflexivity.
  - assert (Hr : py_range 1 (k + 1) = []).
    { unfold py_range. specialize (Hk k eq_refl).
      replace (Z.to_nat (k + 1 - 1)) with 0%nat by lia. reflexivity. }
    rewrite Hr in H. simpl in H. destruct H as [-> _]. reflexivity.
Qed.

(** X7.  When [int(args.distance)] is 0 or negative, or raises, no run
    makes a single normals or warp call: [range(1, int(distance)+1)] is
    empty and the shell is left as decimated. *)
Theorem no_warp_below_distance_one
        (world : Type) (h : handler world) (w : world) (args : Namespace)
        (tr : list event) (o : outcome unit) (w' : world) :
  run h (main_block stem args) w = (tr, o, w') ->
  (forall k, py_int (distance args) = inr k -> k <= 0) ->
  never is_warp tr.
Proof.
  intros Hrun Hk. apply run_exec in Hrun.
  destruct (main_block_any _ _ _ _ Hrun)
    as (mesh & obj_name & shell0 & shell1 & em & uniform
        & t1 & t2 & t3 & t4 & t5 & t6 & t7 & t8
        & -> & H1 & H2 & H3 & H4 & H5 & H6 & H7 & H8).
  rewrite (expansion_idle _ _ _ Hk H6). simpl.
  stages_share.
Qed.

(** *** The command line *)

(** Running [p] and then [f] on its result: the traces are appended, and
    an exception of [p] ends the run. *)
Lemma run_bind {world A B : Type} (h : handler world) (p : prog A)
      (f : A -> prog B) :
  forall w,
    run h (bind p f) w =
    match run h p w with
    | (tr1, Normal a, w1) =>
        let '(tr2, o, w2) := run h (f a) w1 in (tr1 ++ tr2, o, w2)
    | (tr1, Raised e, w1) => (tr1, Raised e, w1)
    end.
Proof.
  induction p as [a | e | c k IH]; intros w; simpl.
  - destruct (run h (f a) w) as [[tr2 o] w2]. reflexivity.
  - reflexivity.
  - destruct (h c w) as [[e | r] w1]; [reflexivity|].
    rewrite IH. destruct (run h (k r) w1) as [[tr1 [a | e]] w2].
    + destruct (run h (f a) w2) as [[tr2 o] w3]. reflexivity.
    + reflexivity.
Qed.

Lemma parse_command_line_any tr o :
  exec parse_command_line tr o ->
  on_calls (fun c => is_argparse c = true) tr /\
  forall args, o = Normal args ->
    exists parser,
      tr = [Ev (ArgumentParser "surface-sampler") (inr parser);
            Ev (add_argument parser "molecule" None None
                  "PDB file for input structure") (inr tt);
            Ev (add_argument parser "distance" (Some type_float)
                  (Some (NFloat float_10_0)) "Distance to surface") (inr tt);
            Ev (add_argument parser "points" (Some type_int)
                  (Some (NInt 400)) "Number of points to generate") (inr tt);
            Ev (parse_args parser) (inr args)].
Proof.
  unfold parse_command_line. intros H.
  call_or_fail H as parser
    by (split; [repeat constructor | intros a Ha; rewrite Ha in H; discriminate]).
  call_or_fail H as []
    by (split; [repeat constructor | intros a Ha; rewrite Ha in H; discriminate]).
  call_or_fail H as []
    by (split; [repeat constructor | intros a Ha; rewrite Ha in H; discriminate]).
  call_or_fail H as []
    by (split; [repeat constructor | intros a Ha; rewrite Ha in H; discriminate]).
  call_or_fail H as parsed
    by (split; [repeat constructor | intros a Ha; rewrite Ha in H; discriminate]).
  cbn [exec bind] in H. destruct H as [-> H].
  split; [repeat constructor|].
  intros args Ho. rewrite Ho in H. inversion H; subst parsed.
  exists parser. reflexivity.
Qed.

(** X1.  [main] builds a parser named surface-sampler, declares the
    positionals molecule, distance (float) and points (int) in this order,
    parses, and runs the pipeline on the parsed arguments in the world
    argparse left.  When argparse raises, the run ends there: no other
    library has been called. *)
Theorem main_parses_then_runs_the_pipeline
        (world : Type) (h : handler world) (w : world)
        (tr : list event) (o : outcome unit) (w' : world) :
  run h (main stem) w = (tr, o, w') ->
  (on_calls (fun c => is_argparse c = true) tr /\ exists err, o = Raised err) \/
  exists parser args w1 rest,
    tr = [Ev (ArgumentParser "surface-sampler") (inr parser);
          Ev (add_argument parser "molecule" None None
                "PDB file for input structure") (inr tt);
          Ev (add_argument parser "distance" (Some type_float)
                (Some (NFloat float_10_0)) "Distance to surface") (inr tt);
          Ev (add_argument parser "points" (Some type_int)
                (Some (NInt 400)) "Number of points to generate") (inr tt);
          Ev (parse_args parser) (inr args)] ++ rest /\
    run h (main_block stem args) w1 = (rest, o, w').
Proof.
  unfold main. rewrite run_bind.
  destruct (run h parse_command_line w) as [[tr1 [args | e]] w1] eqn:Hp;
    apply run_exec in Hp; destruct (parse_command_line_any _ _ Hp) as [Hc Hn].
  - destruct (run h (main_block stem args) w1) as [[tr2 o2] w2] eqn:Hb.
    intros Hrun. inversion Hrun; subst. right.
    destruct (Hn args eq_refl) as (parser & ->).
    exists parser, args, w1, tr2. split; [reflexivity | exact Hb].
  - intros Hrun. inversion Hrun; subst. left. split; [exact Hc | eauto].
Qed.

(** *** The volume report *)

Lemma combine_maps {A B : Type} :
  forall (l1 : list A) (l2 : list B),
    List.length l1 = List.length l2 ->
    map fst (combine l1 l2) = l1 /\ map snd (combine l1 l2) = l2.
Proof.
  induction l1 as [|a l1 IH]; intros [|b l2] Hlen; simpl in *;
    try discriminate; auto.
  destruct (IH l2) as [H1 H2]; [lia|]. rewrite H1, H2. auto.
Qed.

(** [enumerate] numbers the items from 0, in order. *)
Lemma enumerate_maps {A : Type} (l : list A) :
  map fst (enumerate l) = py_range 0 (Z.of_nat (List.length l)) /\
  map snd (enumerate l) = l.
Proof.
  unfold enumerate. apply combine_maps.
  rewrite py_range_length. lia.
Qed.

Lemma volume_reports_count l segs :
  Forall2 volume_report l segs ->
  count_calls is_getVolume (List.concat segs) = List.length l.
Proof.
  induction 1 as [|im seg l segs Hseg _ IH]; [reflexivity|].
  simpl. rewrite count_calls_app, IH.
  destruct Hseg as (vol & ->). reflexivity.
Qed.

(** X2.  In a run that completes, right after the split the volume of
    every component is queried and printed, once each, in the order the
    split returned them and numbered from 0, the components that are then
    dropped included; no other call asks for a volume. *)
Theorem every_component_volume_is_reported
        (world : Type) (h : handler world) (w : world) (args : Namespace)
        (tr : list event) (w' : world) :
  run h (main_block stem args) w = (tr, Normal tt, w') ->
  exists pre whole meshes segs post,
    tr = pre ++ Ev (splitSurfaces whole) (inr meshes)
             :: List.concat segs ++ post /\
    Forall2 volume_report (enumerate meshes) segs /\
    map fst (enumerate meshes) = py_range 0 (Z.of_nat (List.length meshes)) /\
    map snd (enumerate meshes) = meshes /\
    never is_getVolume pre /\ never is_getVolume post /\
    count_calls is_getVolume tr = List.length meshes.
Proof.
  intros Hrun. apply run_exec in Hrun.
  destruct (main_block_normal _ _ _ Hrun)
    as (mesh & obj_name & shell0 & shell1 & em & uniform
        & t1 & t2 & t3 & t4 & t5 & t6 & t7 & t8
        & -> & H1 & H2 & H3 & H4 & H5 & H6 & H7 & H8).
  assert (Hpost : never is_getVolume (t2 ++ t3 ++ t4 ++ t5 ++ t6 ++ t7 ++ t8))
    by stages_share.
  destruct (surface_construction_normal _ _ _ H1)
    as (whole & orient & msg & others & segs & -> & Hsegs).
  destruct (enumerate_maps (mesh :: others)) as [Hfst Hsnd].
  set (pre := [Ev (readPDB_gauss (molecule args)) (inr whole);
               Ev (compute_orientation whole) (inr orient);
               Ev (correctNormals whole) (inr tt);
               Ev (print msg) (inr tt)]).
  assert (Hpre : never is_getVolume pre) by (repeat constructor).
  exists pre, whole, (mesh :: others), segs,
         (t2 ++ t3 ++ t4 ++ t5 ++ t6 ++ t7 ++ t8).
  split; [subst pre; lists_agree|].
  split; [exact Hsegs|]. split; [exact Hfst|]. split; [exact Hsnd|].
  split; [exact Hpre|]. split; [exact Hpost|].
  replace (([Ev (readPDB_gauss (molecule args)) (inr whole);
             Ev (compute_orientation whole) (inr orient);
             Ev (correctNormals whole) (inr tt);
             Ev (print msg) (inr tt);
             Ev (splitSurfaces whole) (inr (mesh :: others))]
            ++ List.concat segs)
           ++ t2 ++ t3 ++ t4 ++ t5 ++ t6 ++ t7 ++ t8)
    with ((pre ++ [Ev (splitSurfaces whole) (inr (mesh :: others))])
          ++ List.concat segs ++ (t2 ++ t3 ++ t4 ++ t5 ++ t6 ++ t7 ++ t8))
    by (subst pre; lists_agree).
  rewrite (count_calls_app _ (pre ++ _) _).
  rewrite (count_calls_app _ (List.concat segs) _).
  rewrite (count_calls_never _ _ Hpost).
  rewrite (volume_reports_count _ _ Hsegs).
  assert (Hhead : count_calls is_getVolume
                    (pre ++ [Ev (splitSurfaces whole) (inr (mesh :: others))])
                  = 0%nat) by reflexivity.
  rewrite Hhead. unfold enumerate. rewrite length_combine, py_range_length.
  lia.
Qed.

(** *** Markers and export *)

(** X4.  In a run that completes, after the five refinement rounds the
    script sets [marker = 23] on the data of every face of the mesh, in
    the order [faceIDs] lists them, sets [ishole = True] and [marker = -1]
    on the root record, and writes the mesh to [<stem>.obj].  From the
    first marker on, nothing smooths or coarsens the mesh, and the file is
    written once. *)
Theorem faces_marked_then_refined_mesh_exported
        (world : Type) (h : handler world) (w : world) (args : Namespace)
        (tr : list event) (w' : world) :
  run h (main_block stem args) w = (tr, Normal tt, w') ->
  exists pre mesh fs segs gInfo post,
    tr = pre ++ Ev (faceIDs mesh) (inr fs) :: List.concat segs
         ++ [Ev (getRoot mesh) (inr gInfo);
             Ev (setattr gInfo "ishole" (VBool true)) (inr tt);
             Ev (setattr gInfo "marker" (VInt (-1))) (inr tt);
             Ev (writeOBJ (stem (molecule args) ++ ".obj")%string mesh)
                (inr tt)]
         ++ post /\
    Forall2 face_marked fs segs /\
    count_calls is_coarse_dense pre = 5%nat /\
    never is_refining (List.concat segs) /\ never is_refining post /\
    never is_writeOBJ pre /\ never is_writeOBJ (List.concat segs) /\
    never is_writeOBJ post.
Proof.
  intros Hrun. apply run_exec in Hrun.
  destruct (main_block_normal _ _ _ Hrun)
    as (mesh & obj_name & shell0 & shell1 & em & uniform
        & t1 & t2 & t3 & t4 & t5 & t6 & t7 & t8
        & -> & H1 & H2 & H3 & H4 & H5 & H6 & H7 & H8).
  assert (Hr4 : never is_refining t4) by stages_share.
  assert (Hrpost : never is_refining (t5 ++ t6 ++ t7 ++ t8)) by stages_share.
  assert (Hwpre : never is_writeOBJ (t1 ++ t2 ++ t3)) by stages_share.
  assert (Hwpost : never is_writeOBJ (t5 ++ t6 ++ t7 ++ t8)) by stages_share.
  assert (Hc12 : never is_coarse_dense (t1 ++ t2)) by stages_share.
  assert (Hcount : count_calls is_coarse_dense (t1 ++ t2 ++ t3) = 5%nat).
  { replace (t1 ++ t2 ++ t3) with ((t1 ++ t2) ++ t3) by lists_agree.
    rewrite count_calls_app, (count_calls_never _ _ Hc12).
    destruct (refinement_normal _ _ H3) as (segs3 & -> & Hsegs3).
    rewrite (refinement_rounds_count _ _ _ Hsegs3).
    apply Forall2_length in Hsegs3. rewrite <- Hsegs3. reflexivity. }
  destruct (export_normal _ _ _ _ _ H4) as (fs & segs & gInfo & -> & Hsegs & ->).
  assert (Hsegs_r : never is_refining (List.concat segs)).
  { inversion Hr4 as [|x l Px Pl]; subst.
    apply Forall_app in Pl. destruct Pl as [Pl _]. exact Pl. }
  assert (Hsegs_w : never is_writeOBJ (List.concat segs)).
  { clear - Hsegs. induction Hsegs as [|f seg l segs' Hseg _ IH]; simpl.
    - constructor.
    - apply on_calls_app. split; [|exact IH].
      destruct Hseg as (d & ->). repeat constructor. }
  exists (t1 ++ t2 ++ t3), mesh, fs, segs, gInfo, (t5 ++ t6 ++ t7 ++ t8).
  split; [lists_agree|]. repeat split; assumption.
Qed.

(** *** The viewer *)

(** X6.  In a run that completes, the plotter (one view, not a notebook)
    is given the mesh of the clusters, the [points] of that mesh as red
    spheres of size 8.0, and the expanded mesh from before the resampling
    with smooth shading; the views are linked, the bounds shown, and
    [show()] is called.  The points written afterwards are read again
    from the same mesh of the clusters. *)
Theorem viewer_shows_clusters_points_and_expanded_mesh
        (world : Type) (h : handler world) (w : world) (args : Namespace)
        (tr : list event) (w' : world) :
  run h (main_block stem args) w = (tr, Normal tt, w') ->
  exists pre shell expanded_mesh clus clustered uniform p shown array pts,
    tr = pre
         ++ [Ev (extract_surface shell) (inr expanded_mesh);
             Ev (Clustering expanded_mesh) (inr clus);
             Ev (subdivide clus 3) (inr tt);
             Ev (cluster clus (points args)) (inr tt);
             Ev (create_mesh clus) (inr clustered);
             Ev (extract_surface clustered) (inr uniform)]
         ++ [Ev (Plotter false (1, 1)) (inr p);
             Ev (add_mesh p uniform None) (inr tt);
             Ev (get_points uniform) (inr shown);
             Ev (np_asarray shown) (inr array);
             Ev (add_points p array "r" float_8_0 true) (inr tt);
             Ev (add_mesh p expanded_mesh (Some true)) (inr tt);
             Ev (link_views p) (inr tt);
             Ev (show_bounds p) (inr tt);
             Ev (show p) (inr tt);
             Ev (get_points uniform) (inr pts);
             Ev (create_pdb_from_points
                   (stem (molecule args) ++ "_swarms.pdb")%string pts)
                (inr tt)] /\
    never is_viewer pre.
Proof.
  intros Hrun. apply run_exec in Hrun.
  destruct (main_block_normal _ _ _ Hrun)
    as (mesh & obj_name & shell0 & shell1 & em & uniform
        & t1 & t2 & t3 & t4 & t5 & t6 & t7 & t8
        & -> & H1 & H2 & H3 & H4 & H5 & H6 & H7 & H8).
  assert (Hpre : never is_viewer (t1 ++ t2 ++ t3 ++ t4 ++ t5 ++ t6))
    by stages_share.
  destruct (resampling_normal _ _ _ _ _ H7) as (clus & clustered & ->).
  destruct (viewer_normal _ _ _ _ _ H8) as (p & shown & array & pts & ->).
  exists (t1 ++ t2 ++ t3 ++ t4 ++ t5 ++ t6), shell1, em, clus, clustered,
         uniform, p, shown, array, pts.
  split; [lists_agree | exact Hpre].
Qed.

(** *** The orientation report *)

(** One call of a run, with the run after it left as it is. *)
Lemma exec_call_inv {A : Type} (c : call) (k : ret_of c -> prog A) tr o :
  exec (Call c k) tr o ->
  (exists e, tr = [Ev c (inl e)] /\ o = Raised e) \/
  (exists r tr', tr = Ev c (inr r) :: tr' /\ exec (k r) tr' o).
Proof. intros H. exact H. Qed.

Lemma never_not_returned (f : call -> bool) tr :
  never f tr ->
  Forall (fun e => ~ (f (ev_call e) = true /\ returned e = true)) tr.
Proof.
  unfold never, on_calls. apply Forall_impl.
  intros e H [Hf _]. rewrite H in Hf. discriminate.
Qed.

(** The first stage around [compute_orientation]: either that call did
    not return, or it is the second call and [correctNormals] on the same
    mesh follows it. *)
Lemma construction_orientation_any args tr o :
  exec (surface_construction args) tr o ->
  Forall (fun e => ~ (is_orientation (ev_call e) = true /\
                      returned e = true)) tr \/
  exists whole flags r back,
    tr = [Ev (readPDB_gauss (molecule args)) (inr whole)]
         ++ Ev (compute_orientation whole) (inr flags)
            :: Ev (correctNormals whole) r :: back /\
    never is_orientation back.
Proof.
  unfold surface_construction. intros H.
  call_or_fail H as whole
    by (left; repeat constructor; intros [Hf _]; discriminate).
  call_or_fail H as flags
    by (left; repeat constructor; intros [Hf Hr]; discriminate).
  right. exists whole, flags. destruct flags as [[components orientable] manifold].
  cbn [bind invoke] in H. apply exec_call_inv in H.
  destruct H as [(e & -> & _) | ([] & back & -> & H)].
  - exists (inl e), []. split; [reflexivity | constructor].
  - exists (inr tt), back. split; [reflexivity|].
    eapply all_calls_exec; [|exact H]. calls_tac.
Qed.

(** X3.  The orientation diagnostics never stop a run: whatever
    component count and orientable / manifold flags [compute_orientation]
    returns for the mesh read from [args.molecule], the next call is
    [correctNormals] on that same mesh. *)
Theorem orientation_flags_never_stop_the_run
        (world : Type) (h : handler world) (w : world) (args : Namespace)
        (tr : list event) (o : outcome unit) (w' : world) :
  run h (main_block stem args) w = (tr, o, w') ->
  forall pre whole flags post,
    tr = pre ++ Ev (compute_orientation whole) (inr flags) :: post ->
    pre = [Ev (readPDB_gauss (molecule args)) (inr whole)] /\
    exists r post', post = Ev (correctNormals whole) r :: post'.
Proof.
  intros Hrun pre whole flags post Htr. apply run_exec in Hrun.
  destruct (main_block_any _ _ _ _ Hrun)
    as (mesh & obj_name & shell0 & shell1 & em & uniform
        & t1 & t2 & t3 & t4 & t5 & t6 & t7 & t8
        & -> & H1 & H2 & H3 & H4 & H5 & H6 & H7 & H8).
  assert (Hrest : never is_orientation (t2 ++ t3 ++ t4 ++ t5 ++ t6 ++ t7 ++ t8))
    by stages_share.
  apply never_not_returned in Hrest.
  assert (HQ : is_orientation
                 (ev_call (Ev (compute_orientation whole) (inr flags))) = true /\
               returned (Ev (compute_orientation whole) (inr flags)) = true)
    by (split; reflexivity).
  assert (H1' : Forall (fun e => ~ (is_orientation (ev_call e) = true /\
                                    returned e = true)) t1 \/
                exists whole0 flags0 r back,
                  t1 = [Ev (readPDB_gauss (molecule args)) (inr whole0)]
                       ++ Ev (compute_orientation whole0) (inr flags0)
                          :: Ev (correctNormals whole0) r :: back /\
                  never is_orientation back).
  { destruct H1 as [-> | (o1 & H1)]; [left; constructor|].
    exact (construction_orientation_any _ _ _ H1). }
  destruct H1' as [Hn | (whole0 & flags0 & r & back & -> & Hback)].
  - exfalso.
    assert (Hall : Forall (fun e => ~ (is_orientation (ev_call e) = true /\
                                       returned e = true))
                          (pre ++ Ev (compute_orientation whole) (inr flags)
                               :: post)).
    { rewrite <- Htr. apply Forall_app. auto. }
    apply Forall_app in Hall. destruct Hall as [_ Hall].
    inversion Hall; subst. auto.
  - apply never_not_returned in Hback.
    assert (Heq : [Ev (readPDB_gauss (molecule args)) (inr whole0)]
                  ++ Ev (compute_orientation whole0) (inr flags0)
                     :: (Ev (correctNormals whole0) r :: back)
                        ++ t2 ++ t3 ++ t4 ++ t5 ++ t6 ++ t7 ++ t8
                  = pre ++ Ev (compute_orientation whole) (inr flags) :: post).
    { rewrite <- Htr. lists_agree. }
    assert (HB : Forall (fun e => ~ (is_orientation (ev_call e) = true /\
                                     returned e = true))
                        ((Ev (correctNormals whole0) r :: back)
                         ++ t2 ++ t3 ++ t4 ++ t5 ++ t6 ++ t7 ++ t8)).
    { apply Forall_app. split; [|exact Hrest].
      constructor; [intros [Hf _]; discriminate | exact Hback]. }
    assert (HA : Forall (fun e => ~ (is_orientation (ev_call e) = true /\
                                     returned e = true))
                        [Ev (readPDB_gauss (molecule args)) (inr whole0)]).
    { repeat constructor. intros [Hf _]. discriminate. }
    destruct (app_cons_unique _ _ _ _ _ _ _ Heq HA HB HQ) as (-> & He & ->).
    apply (f_equal ev_call) in He. simpl in He. inversion He; subst whole0.
    split; [reflexivity|]. eexists. eexists. reflexivity.
Qed.

(** *** The intermediate file *)

Lemma decimation_any_first obj_name tr o :
  exec (reimport_decimate obj_name) tr o ->
  exists r back, tr = Ev (pv_read obj_name) r :: back /\ never is_pv_read back.
Proof.
  unfold reimport_decimate. intros H.
  cbn [bind invoke] in H. apply exec_call_inv in H.
  destruct H as [(e & -> & _) | (mesh & back & -> & H)].
  - exists (inl e), []. split; [reflexivity | constructor].
  - exists (inr mesh), back. split; [reflexivity|].
    eapply all_calls_exec; [|exact H]. calls_tac.
Qed.

Lemma app_not_nil {X : Type} (a b : list X) : b <> [] -> a ++ b <> [].
Proof. intros Hb Hab. apply app_eq_nil in Hab. tauto. Qed.

(** X5.  The intermediate file is read only after it was written: in
    every run, a [pv.read] call reads [<stem>.obj], and the call right
    before it is the [writeOBJ] of that same file, which returned; the
    file is read at most once. *)
Theorem obj_file_is_read_right_after_it_is_written
        (world : Type) (h : handler world) (w : world) (args : Namespace)
        (tr : list event) (o : outcome unit) (w' : world) :
  run h (main_block stem args) w = (tr, o, w') ->
  forall pre e post,
    tr = pre ++ e :: post -> is_pv_read (ev_call e) = true ->
    ev_call e = pv_read (stem (molecule args) ++ ".obj")%string /\
    (exists before mesh,
        pre = before
              ++ [Ev (writeOBJ (stem (molecule args) ++ ".obj")%string mesh)
                     (inr tt)]) /\
    never is_pv_read pre /\ never is_pv_read post.
Proof.
  intros Hrun pre e post Htr He. apply run_exec in Hrun.
  destruct (main_block_linked _ _ _ Hrun)
    as (mesh & obj_name & shell0 & shell1 & em & uniform
        & t1 & t2 & t3 & t4 & t5 & t6 & t7 & t8
        & -> & H1 & H2 & H3 & H4 & H5 & H6 & H7 & H8).
  assert (Hpre : never is_pv_read (t1 ++ t2 ++ t3 ++ t4)) by stages_share.
  assert (Hpost : never is_pv_read (t6 ++ t7 ++ t8)) by stages_share.
  assert (H5' : t5 = [] \/
                exists r back, t5 = Ev (pv_read obj_name) r :: back /\
                               never is_pv_read back).
  { destruct (reach_may _ _ _ _ H5) as [-> | (o5 & H5')]; [left; reflexivity|].
    right. eapply decimation_any_first. exact H5'. }
  destruct H5' as [-> | (r & back & -> & Hback)].
  - exfalso.
    assert (Hall : never is_pv_read (pre ++ e :: post)).
    { rewrite <- Htr. unfold never in *.
      replace (t1 ++ t2 ++ t3 ++ t4 ++ [] ++ t6 ++ t7 ++ t8)
        with ((t1 ++ t2 ++ t3 ++ t4) ++ (t6 ++ t7 ++ t8)) by lists_agree.
      apply on_calls_app. auto. }
    apply on_calls_app in Hall. destruct Hall as [_ Hall].
    inversion Hall; subst. congruence.
  - assert (HB : never is_pv_read (back ++ t6 ++ t7 ++ t8))
      by (apply on_calls_app; auto).
    assert (Heq : (t1 ++ t2 ++ t3 ++ t4)
                  ++ Ev (pv_read obj_name) r :: (back ++ t6 ++ t7 ++ t8)
                  = pre ++ e :: post).
    { rewrite <- Htr. lists_agree. }
    destruct (app_cons_unique (fun x => is_pv_read (ev_call x) = true)
                _ _ _ _ _ _ Heq (never_not _ _ Hpre) (never_not _ _ HB) He)
      as (-> & -> & ->).
    assert (Hlater : (Ev (pv_read obj_name) r :: back) ++ t6 ++ t7 ++ t8 <> [])
      by discriminate.
    apply (reach_normal _ _ _ _ H4) in Hlater.
    destruct (export_normal _ _ _ _ _ Hlater)
      as (fs & segs & gInfo & -> & _ & ->).
    split; [reflexivity|]. split; [|split; [exact Hpre | exact HB]].
    exists (t1 ++ t2 ++ t3 ++ Ev (faceIDs mesh) (inr fs) :: List.concat segs
            ++ [Ev (getRoot mesh) (inr gInfo);
                Ev (setattr gInfo "ishole" (VBool true)) (inr tt);
                Ev (setattr gInfo "marker" (VInt (-1))) (inr tt)]), mesh.
    lists_agree.
Qed.

(** *** From pygamer to pyvista *)

(** The export stage, however it ends: [writeOBJ] is its last call, if it
    gets that far. *)
Lemma export_any args mesh tr o :
  exec (export_surface stem args mesh) tr o ->
  never is_writeOBJ tr \/
  exists front r,
    tr = front
         ++ [Ev (writeOBJ (stem (molecule args) ++ ".obj")%string mesh) r] /\
    never is_writeOBJ front.
Proof.
  unfold export_surface. intros H.
  call_or_fail H as fs by (left; repeat constructor).
  apply exec_bind_inv in H.
  destruct H as [(e & Hloop & ->) | (u & tr1 & tr2 & Hloop & H & ->)].
  - left. unfold never. apply on_calls_cons; [reflexivity|].
    eapply all_calls_exec; [|exact Hloop]. calls_tac.
  - assert (Hn1 : never is_writeOBJ tr1).
    { eapply all_calls_exec; [|exact Hloop]. calls_tac. }
    call_or_fail H as gInfo
      by (left; unfold never; apply on_calls_cons; [reflexivity|];
          apply on_calls_app; split; [exact Hn1 | repeat constructor]).
    call_or_fail H as []
      by (left; unfold never; apply on_calls_cons; [reflexivity|];
          apply on_calls_app; split; [exact Hn1 | repeat constructor]).
    call_or_fail H as []
      by (left; unfold never; apply on_calls_cons; [reflexivity|];
          apply on_calls_app; split; [exact Hn1 | repeat constructor]).
    right.
    exists (Ev (faceIDs mesh) (inr fs) :: tr1
            ++ [Ev (getRoot mesh) (inr gInfo);
                Ev (setattr gInfo "ishole" (VBool true)) (inr tt);
                Ev (setattr gInfo "marker" (VInt (-1))) (inr tt)]).
    destruct H as [(e & -> & _) | ([] & tr' & -> & -> & _)].
    + exists (inl e). split; [lists_agree|].
      unfold never. apply on_calls_cons; [reflexivity|].
      apply on_calls_app. split; [exact Hn1 | repeat constructor].
    + exists (inr tt). split; [lists_agree|].
      unfold never. apply on_calls_cons; [reflexivity|].
      apply on_calls_app. split; [exact Hn1 | repeat constructor].
Qed.

(** X8.  The script hands over from pygamer to pyvista at the OBJ file:
    in every run, everything called before [writeOBJ] is a pygamer call or
    a [print], nothing called after it is a pygamer call, and [writeOBJ]
    is called at most once. *)
Theorem pygamer_ends_at_the_obj_file
        (world : Type) (h : handler world) (w : world) (args : Namespace)
        (tr : list event) (o : outcome unit) (w' : world) :
  run h (main_block stem args) w = (tr, o, w') ->
  forall pre e post,
    tr = pre ++ e :: post -> is_writeOBJ (ev_call e) = true ->
    on_calls (fun c => is_pygamer c = true \/ is_print c = true) pre /\
    never is_pygamer post /\
    never is_writeOBJ pre /\ never is_writeOBJ post.
Proof.
  intros Hrun pre e post Htr He. apply run_exec in Hrun.
  destruct (main_block_any _ _ _ _ Hrun)
    as (mesh & obj_name & shell0 & shell1 & em & uniform
        & t1 & t2 & t3 & t4 & t5 & t6 & t7 & t8
        & -> & H1 & H2 & H3 & H4 & H5 & H6 & H7 & H8).
  assert (Hq : on_calls (fun c => is_pygamer c = true \/ is_print c = true)
                        (t1 ++ t2 ++ t3)).
  { repeat (apply on_calls_app; split); stage_share. }
  assert (Hq4 : on_calls (fun c => is_pygamer c = true \/ is_print c = true) t4)
    by stage_share.
  assert (Hpost : never is_pygamer (t5 ++ t6 ++ t7 ++ t8)) by stages_share.
  assert (Hw : never is_writeOBJ (t1 ++ t2 ++ t3)) by stages_share.
  assert (Hwpost : never is_writeOBJ (t5 ++ t6 ++ t7 ++ t8)) by stages_share.
  assert (H4' : never is_writeOBJ t4 \/
                exists front r,
                  t4 = front
                       ++ [Ev (writeOBJ (stem (molecule args) ++ ".obj")%string
                                        mesh) r] /\
                  never is_writeOBJ front).
  { destruct H4 as [-> | (o4 & H4)]; [left; constructor|].
    exact (export_any _ _ _ _ H4). }
  destruct H4' as [Hn4 | (front & r & -> & Hfront)].
  - exfalso.
    assert (Hall : never is_writeOBJ (pre ++ e :: post)).
    { rewrite <- Htr. unfold never in *.
      replace (t1 ++ t2 ++ t3 ++ t4 ++ t5 ++ t6 ++ t7 ++ t8)
        with ((t1 ++ t2 ++ t3) ++ t4 ++ (t5 ++ t6 ++ t7 ++ t8))
        by lists_agree.
      apply on_calls_app. split; [exact Hw|].
      apply on_calls_app. split; [exact Hn4 | exact Hwpost]. }
    apply on_calls_app in Hall. destruct Hall as [_ Hall].
    inversion Hall; subst. congruence.
  - assert (HA : never is_writeOBJ ((t1 ++ t2 ++ t3) ++ front))
      by (apply on_calls_app; auto).
    assert (Heq : ((t1 ++ t2 ++ t3) ++ front)
                  ++ Ev (writeOBJ (stem (molecule args) ++ ".obj")%string mesh) r
                     :: (t5 ++ t6 ++ t7 ++ t8)
                  = pre ++ e :: post).
    { rewrite <- Htr. lists_agree. }
    destruct (app_cons_unique (fun x => is_writeOBJ (ev_call x) = true)
                _ _ _ _ _ _ Heq (never_not _ _ HA) (never_not _ _ Hwpost) He)
      as (-> & _ & ->).
    apply on_calls_app in Hq4. destruct Hq4 as [Hq4 _].
    split; [apply on_calls_app; auto|].
    split; [exact Hpost|]. split; [exact HA | exact Hwpost].
Qed.

(** *** What the point file stands for *)

Lemma refinement_normal_count mesh tr :
  exec (refinement mesh) tr (Normal tt) ->
  count_calls is_coarse_dense tr = 5%nat.
Proof.
  intros H. destruct (refinement_normal _ _ H) as (segs & -> & Hsegs).
  rewrite (refinement_rounds_count _ _ _ Hsegs).
  apply Forall2_length in Hsegs. rewrite <- Hsegs. reflexivity.
Qed.

(** X9.  The point file is written only by a run that went through the
    whole pipeline: in every run, before a call of
    [create_pdb_from_points] there are exactly five refinement rounds,
    one decimation, the rounds 1 to [int(distance)] of the expansion and
    one clustering. *)
Theorem point_file_needs_the_whole_pipeline
        (world : Type) (h : handler world) (w : world) (args : Namespace)
        (tr : list event) (o : outcome unit) (w' : world) :
  run h (main_block stem args) w = (tr, o, w') ->
  forall pre e post,
    tr = pre ++ e :: post -> is_write (ev_call e) = true ->
    count_calls is_coarse_dense pre = 5%nat /\
    count_calls is_decimate pre = 1%nat /\
    count_calls is_cluster pre = 1%nat /\
    exists k, py_int (distance args) = inr k /\
              expansion_rounds pre = py_range 1 (k + 1).
Proof.
  intros Hrun pre e post Htr He. apply run_exec in Hrun.
  destruct (main_block_linked _ _ _ Hrun)
    as (mesh & obj_name & shell0 & shell1 & em & uniform
        & t1 & t2 & t3 & t4 & t5 & t6 & t7 & t8
        & -> & H1 & H2 & H3 & H4 & H5 & H6 & H7 & H8).
  assert (Hw : never is_write (t1 ++ t2 ++ t3 ++ t4 ++ t5 ++ t6 ++ t7))
    by stages_share.
  assert (H8' : never is_write t8 \/
                exists front x, t8 = front ++ [x] /\
                  count_calls is_coarse_dense front = 0%nat /\
                  count_calls is_decimate front = 0%nat /\
                  count_calls is_cluster front = 0%nat /\
                  expansion_rounds front = [] /\
                  never is_write front).
  { destruct H8 as [-> | (o8 & H8)]; [left; constructor|].
    destruct (output_any _ _ _ _ _ _ H8)
      as [Hn | (p & shown & array & pts & r & ->)]; [left; exact Hn|].
    right. eexists. eexists. split; [reflexivity|].
    repeat split; try reflexivity. repeat constructor. }
  destruct H8' as [Hn8 | (front & x & -> & F1 & F2 & F3 & F4 & F5)].
  { exfalso.
    assert (Hall : never is_write (pre ++ e :: post)).
    { rewrite <- Htr. unfold never in *.
      replace (t1 ++ t2 ++ t3 ++ t4 ++ t5 ++ t6 ++ t7 ++ t8)
        with ((t1 ++ t2 ++ t3 ++ t4 ++ t5 ++ t6 ++ t7) ++ t8) by lists_agree.
      apply on_calls_app. auto. }
    apply on_calls_app in Hall. destruct Hall as [_ Hall].
    inversion Hall; subst. congruence. }
  assert (HA : never is_write
                 ((t1 ++ t2 ++ t3 ++ t4 ++ t5 ++ t6 ++ t7) ++ front))
    by (apply on_calls_app; auto).
  assert (Heq : ((t1 ++ t2 ++ t3 ++ t4 ++ t5 ++ t6 ++ t7) ++ front)
                ++ x :: [] = pre ++ e :: post).
  { rewrite <- Htr. lists_agree. }
  destruct (app_cons_unique (fun y => is_write (ev_call y) = true)
              _ _ _ _ _ _ Heq (never_not _ _ HA) (Forall_nil _) He)
    as (-> & _ & ->).
  assert (N8 : front ++ [x] <> []) by (destruct front; discriminate).
  pose proof (reach_normal _ _ _ _ H7 N8) as E7.
  pose proof (reach_normal _ _ _ _ H6 (app_not_nil _ _ N8)) as E6.
  pose proof (reach_normal _ _ _ _ H5
                (app_not_nil _ _ (app_not_nil _ _ N8))) as E5.
  pose proof (reach_normal _ _ _ _ H4
                (app_not_nil _ _ (app_not_nil _ _ (app_not_nil _ _ N8)))) as E4.
  pose proof (reach_normal _ _ _ _ H3
                (app_not_nil _ _ (app_not_nil _ _ (app_not_nil _ _
                   (app_not_nil _ _ N8))))) as E3.
  pose proof (reach_normal _ _ _ _ H2
                (app_not_nil _ _ (app_not_nil _ _ (app_not_nil _ _
                   (app_not_nil _ _ (app_not_nil _ _ N8)))))) as E2.
  pose proof (reach_normal _ _ _ _ H1
                (app_not_nil _ _ (app_not_nil _ _ (app_not_nil _ _
                   (app_not_nil _ _ (app_not_nil _ _
                      (app_not_nil _ _ N8))))))) as E1.
  clear H1 H2 H3 H4 H5 H6 H7 H8 Heq Htr Hrun.
  split; [|split; [|split]].
  - assert (Ha : never is_coarse_dense (t1 ++ t2)) by stages_share.
    assert (Hb : never is_coarse_dense (t4 ++ t5 ++ t6 ++ t7)) by stages_share.
    replace ((t1 ++ t2 ++ t3 ++ t4 ++ t5 ++ t6 ++ t7) ++ front)
      with ((t1 ++ t2) ++ t3 ++ (t4 ++ t5 ++ t6 ++ t7) ++ front)
      by lists_agree.
    rewrite (count_calls_app _ (t1 ++ t2) _), (count_calls_never _ _ Ha).
    rewrite (count_calls_app _ t3 _), (refinement_normal_count _ _ E3).
    rewrite (count_calls_app _ (t4 ++ t5 ++ t6 ++ t7) _),
      (count_calls_never _ _ Hb), F1.
    reflexivity.
  - assert (Ha : never is_decimate (t1 ++ t2 ++ t3 ++ t4)) by stages_share.
    assert (Hb : never is_decimate (t6 ++ t7)) by stages_share.
    replace ((t1 ++ t2 ++ t3 ++ t4 ++ t5 ++ t6 ++ t7) ++ front)
      with ((t1 ++ t2 ++ t3 ++ t4) ++ t5 ++ (t6 ++ t7) ++ front)
      by lists_agree.
    rewrite (count_calls_app _ (t1 ++ t2 ++ t3 ++ t4) _),
      (count_calls_never _ _ Ha).
    rewrite (count_calls_app _ t5 _).
    rewrite (count_calls_app _ (t6 ++ t7) _), (count_calls_never _ _ Hb), F2.
    destruct (decimation_normal _ _ _ E5)
      as (reloaded & decimated & mp & n1 & sp & n2 & ->).
    reflexivity.
  - assert (Ha : never is_cluster (t1 ++ t2 ++ t3 ++ t4 ++ t5 ++ t6))
      by stages_share.
    replace ((t1 ++ t2 ++ t3 ++ t4 ++ t5 ++ t6 ++ t7) ++ front)
      with ((t1 ++ t2 ++ t3 ++ t4 ++ t5 ++ t6) ++ t7 ++ front)
      by lists_agree.
    rewrite (count_calls_app _ (t1 ++ t2 ++ t3 ++ t4 ++ t5 ++ t6) _),
      (count_calls_never _ _ Ha).
    rewrite (count_calls_app _ t7 _), F3.
    destruct (resampling_normal _ _ _ _ _ E7) as (clus & clustered & ->).
    reflexivity.
  - destruct (expansion_normal _ _ _ _ E6) as (k & Hk & Hit).
    exists k. split; [exact Hk|].
    assert (Ha : on_calls (fun c => announces_round c = None)
                          (t1 ++ t2 ++ t3 ++ t4 ++ t5)).
    { repeat (apply on_calls_app; split); stage_share. }
    assert (Hb : on_calls (fun c => announces_round c = None) t7)
      by stage_share.
    replace ((t1 ++ t2 ++ t3 ++ t4 ++ t5 ++ t6 ++ t7) ++ front)
      with ((t1 ++ t2 ++ t3 ++ t4 ++ t5) ++ t6 ++ t7 ++ front)
      by lists_agree.
    rewrite expansion_rounds_app, (expansion_rounds_none _ Ha).
    rewrite expansion_rounds_app, (iterated_rounds _ _ _ _ Hit).
    rewrite expansion_rounds_app, (expansion_rounds_none _ Hb), F4.
    simpl. rewrite app_nil_r. reflexivity.
Qed.

End Further.
